(** * Presence registry and message relay of the Ayinet backend

    A shallow embedding of the real-time part of [server.js]: the
    [onlineUsers] map, the Socket.IO [connection], [send_message] and
    [disconnect] handlers, and the [messages] table they insert into.

    The JavaScript [Map] is a [gmap]; the handlers are transformers of an
    explicit server state that also records what was handed to Socket.IO
    ([emitted]) and to the console.  The [await] inside [send_message]
    splits that handler in two halves, so that other events can run in
    between.  The business-profile route, the one REST route with more
    than one statement, is modelled by the statements it sends and the
    answer it gives. *)

From stdpp Require Import gmap strings list fin_maps.
From Stdlib Require Import ZArith.

Local Open Scope Z_scope.

(** ** JavaScript values used by the handlers *)

(** A socket id is the string Socket.IO assigns to a connection. *)
Definition SocketId := string.

(** [if (x)] on a string: every string but the empty one is truthy. *)
Definition truthy (s : string) : bool := bool_decide (s ≠ EmptyString).

(** [if (x)] on a value that is a string or [undefined]. *)
Definition truthy_opt (v : option string) : bool :=
  match v with
  | Some s => truthy s
  | None => false
  end.

(** ** The [messages] table (schema of [initDB]) *)

(** One row of [messages]; [RETURNING *] hands back all the columns.
    [created_at] is kept as the epoch milliseconds of the [Date] that the
    driver builds for a timestamp column. *)
Record MessageRow := {
  row_id : string;
  sender_id : option string;
  receiver_id : option string;
  content : option string;
  media_url : option string;
  is_read : bool;
  status : string;
  created_at : Z
}.

(** How the store reads a parameter into a column of the DDL.  The
    column types are PostgreSQL's and not part of the repository, so they
    are taken as they come: [uuid_in] gives the UUID a text denotes, in
    the form the store prints it, or [None] when the text is no UUID;
    [text_in] tells whether a [TEXT] column takes the string;
    [varchar_in n] whether a [VARCHAR(n)] column does. *)
Record ColumnTypes := {
  uuid_in : string → option string;
  text_in : string → bool;
  varchar_in : nat → string → bool
}.

(** The part of the database the insert depends on: its column types,
    the ids of [users] (both user columns of [messages] reference
    [users(id)]) and the rows of [messages].  Ids are kept as the store
    prints them. *)
Record Database := {
  types : ColumnTypes;
  users : list string;
  messages : list MessageRow
}.

(** What the store contributes to one insert: whether it can be reached,
    the value of [gen_random_uuid()] and of [CURRENT_TIMESTAMP]. *)
Record StoreEnv := {
  reachable : bool;
  gen_random_uuid : string;
  current_timestamp : Z
}.

Inductive PgError :=
  | ConnectionError
  | InvalidParameter
  | ForeignKeyViolation
  | StringTooLong
  | UniqueViolation.

(** [await pool.query(...)] either yields [result.rows] or throws. *)
Inductive QueryResult :=
  | QueryRows (rows : list MessageRow)
  | QueryThrows (e : PgError).

(** A parameter bound to a [UUID] column: [undefined] reaches the store
    as NULL; a text is read by [uuid_in].  The outer [None] is the
    store's refusal of a text that is no UUID. *)
Definition read_uuid (ty : ColumnTypes) (v : option string)
    : option (option string) :=
  match v with
  | None => Some None
  | Some t => Some <$> uuid_in ty t
  end.

(** The value a [UUID] column gets from a parameter the store could
    read. *)
Definition uuid_value (ty : ColumnTypes) (v : option string) : option string :=
  v ≫= uuid_in ty.

(** A parameter bound to the [TEXT] column: NULL, or a string the
    column takes. *)
Definition read_text (ty : ColumnTypes) (v : option string) : bool :=
  match v with
  | None => true
  | Some t => text_in ty t
  end.

(** [UUID REFERENCES users(id)], nullable, on a value of the column:
    NULL passes, any other value has to be the id of a user. *)
Definition references_users (db : Database) (v : option string) : bool :=
  match v with
  | None => true
  | Some u => bool_decide (u ∈ users db)
  end.

(** The row an accepted insert stores, from the values of its columns. *)
Definition new_row (env : StoreEnv) (sender receiver text : option string)
    (st : string) : MessageRow :=
  {| row_id := gen_random_uuid env;
     sender_id := sender;
     receiver_id := receiver;
     content := text;
     media_url := None;
     is_read := false;
     status := st;
     created_at := current_timestamp env |}.

(** [INSERT INTO messages (sender_id, receiver_id, content, status)
     VALUES ($1, $2, $3, $4) RETURNING *].  [undefined] parameters reach
    the store as NULL.  The parameters are read into the column types
    first; then come the length of [status], a [VARCHAR(20)], the
    primary key [id] with its generated default, and the two references
    to [users].  [media_url] stays NULL and [is_read] takes its
    default. *)
Definition insert_message (env : StoreEnv) (db : Database)
    (sender receiver text : option string) (st : string)
    : Database * QueryResult :=
  if negb (reachable env) then (db, QueryThrows ConnectionError)
  else
    match read_uuid (types db) sender, read_uuid (types db) receiver with
    | Some s, Some r =>
        if negb (read_text (types db) text) then (db, QueryThrows InvalidParameter)
        else if negb (varchar_in (types db) 20 st)
        then (db, QueryThrows StringTooLong)
        else if bool_decide (gen_random_uuid env ∈ row_id <$> messages db)
        then (db, QueryThrows UniqueViolation)
        else if negb (references_users db s && references_users db r)
        then (db, QueryThrows ForeignKeyViolation)
        else
          let row := new_row env s r text st in
          ({| types := types db; users := users db;
              messages := messages db ++ [row] |},
           QueryRows [row])
    | _, _ => (db, QueryThrows InvalidParameter)
    end.

(** ** Events on the wire *)

(** The [message] object of a [send_message] payload. *)
Record Message := {
  senderId : option string;
  text : option string
}.

(** The argument of the [send_message] handler, [{ message, receiverId }];
    a field the client left out is [None]. *)
Record Payload := {
  message : option Message;
  receiverId : option string
}.

(** [savedMsg]: the row spread into a new object, plus [text],
    [timestamp] and [type].  The row has no column of those three names,
    so the spread is kept whole in [sm_row]. *)
Record SavedMsg := {
  sm_row : MessageRow;
  sm_text : option string;
  sm_timestamp : Z;
  sm_type : string
}.

Definition savedMsg (row : MessageRow) : SavedMsg :=
  {| sm_row := row;
     sm_text := content row;
     sm_timestamp := created_at row;
     sm_type := "text" |}.

(** The two ways the handler emits: [io.to(room).emit(event, data)] and
    [socket.emit(event, data)]. *)
Inductive Emission :=
  | IoToEmit (room : SocketId) (event : string) (data : SavedMsg)
  | SocketEmit (socket : SocketId) (event : string) (data : SavedMsg).

Inductive Exception :=
  | TypeError
  | StoreError (e : PgError).

Inductive ConsoleLine :=
  | LogConnected (userId : string) (socket : SocketId)
  | LogDisconnected (userId : string)
  | ErrSaveSendFailed (e : Exception).

(** ** Server state *)

Record Server := {
  onlineUsers : gmap string SocketId;
  pool : Database;
  emitted : list Emission;
  console : list ConsoleLine
}.

Definition initial (db : Database) : Server :=
  {| onlineUsers := ∅; pool := db; emitted := []; console := [] |}.

Definition set_onlineUsers (r : gmap string SocketId) (s : Server) : Server :=
  {| onlineUsers := r; pool := pool s; emitted := emitted s; console := console s |}.

Definition set_pool (db : Database) (s : Server) : Server :=
  {| onlineUsers := onlineUsers s; pool := db; emitted := emitted s; console := console s |}.

Definition emit (e : Emission) (s : Server) : Server :=
  {| onlineUsers := onlineUsers s; pool := pool s;
     emitted := emitted s ++ [e]; console := console s |}.

Definition console_write (l : ConsoleLine) (s : Server) : Server :=
  {| onlineUsers := onlineUsers s; pool := pool s;
     emitted := emitted s; console := console s ++ [l] |}.

(** ** Presence registry *)

(** [onlineUsers.set(userId, socket.id)] *)
Definition register (userId : string) (c : SocketId)
    (reg : gmap string SocketId) : gmap string SocketId :=
  <[userId := c]> reg.

(** [onlineUsers.get(receiverId)]; the keys are strings, so a
    [receiverId] that is [undefined] finds nothing. *)
Definition lookup_user (receiver : option string)
    (reg : gmap string SocketId) : option SocketId :=
  match receiver with
  | Some u => reg !! u
  | None => None
  end.

(** [onlineUsers.delete(userId)] *)
Definition unregister (userId : string)
    (reg : gmap string SocketId) : gmap string SocketId :=
  delete userId reg.

(** ** Handlers *)

(** [io.on('connection', ...)] up to the registration of the listeners;
    [userId] is [socket.handshake.query.userId]. *)
Definition on_connection (socket : SocketId) (userId : option string)
    (s : Server) : Server :=
  match userId with
  | Some u =>
      if truthy u
      then console_write (LogConnected u socket)
             (set_onlineUsers (register u socket (onlineUsers s)) s)
      else s
  | None => s
  end.

(** [socket.on('disconnect', ...)]; [userId] is the variable the
    connection handler closed over. *)
Definition on_disconnect (userId : option string) (s : Server) : Server :=
  match userId with
  | Some u =>
      if truthy u
      then console_write (LogDisconnected u)
             (set_onlineUsers (unregister u (onlineUsers s)) s)
      else s
  | None => s
  end.

(** The body of the [try] after a row came back: build [savedMsg], emit
    to the receiver when the lookup gives a truthy socket id, then emit
    to the sender. *)
Definition relay (socket : SocketId) (receiver : option string)
    (row : MessageRow) (s : Server) : Server :=
  let receiverSocketId := lookup_user receiver (onlineUsers s) in
  let s1 :=
    match receiverSocketId with
    | Some rs =>
        if truthy rs
        then emit (IoToEmit rs "receive_message" (savedMsg row)) s
        else s
    | None => s
    end in
  emit (SocketEmit socket "receive_message" (savedMsg row)) s1.

(** The half of [send_message] that runs once the query has settled.
    A rejected query lands in [catch]; so would [result.rows[0].content]
    on an empty [rows]. *)
Definition send_message_resume (socket : SocketId) (receiver : option string)
    (res : QueryResult) (s : Server) : Server :=
  match res with
  | QueryThrows e => console_write (ErrSaveSendFailed (StoreError e)) s
  | QueryRows [] => console_write (ErrSaveSendFailed TypeError) s
  | QueryRows (row :: _) => relay socket receiver row s
  end.

(** How the promise of the async handler settles. *)
Inductive Settled := Fulfilled | Rejected.

(** [socket.on('send_message', async ({ message, receiverId }) => ...)]
    run without anything in between its two halves.  Without an argument
    the destructuring throws outside the [try]; with [message] missing,
    [message.senderId] throws inside it, before any query. *)
Definition send_message (socket : SocketId) (arg : option Payload)
    (env : StoreEnv) (s : Server) : Server * Settled :=
  match arg with
  | None => (s, Rejected)
  | Some p =>
      match message p with
      | None => (console_write (ErrSaveSendFailed TypeError) s, Fulfilled)
      | Some m =>
          let '(db, res) :=
            insert_message env (pool s) (senderId m) (receiverId p) (text m) "sent" in
          (send_message_resume socket (receiverId p) res (set_pool db s), Fulfilled)
      end
  end.

(** ** The event loop *)

(** A [send_message] handler suspended at its [await]: the variables its
    second half still needs, and how the query settled. *)
Record InFlight := {
  fl_socket : SocketId;
  fl_receiverId : option string;
  fl_result : QueryResult
}.

(** The half of [send_message] that runs before the [await]: evaluate the
    parameters and hand the insert to the store.  The store is taken to
    run the insert at once; the handler learns the outcome when it is
    resumed. *)
Definition send_message_begin (socket : SocketId) (arg : option Payload)
    (env : StoreEnv) (s : Server) : Server * option InFlight :=
  match arg with
  | None => (s, None)
  | Some p =>
      match message p with
      | None => (console_write (ErrSaveSendFailed TypeError) s, None)
      | Some m =>
          let '(db, res) :=
            insert_message env (pool s) (senderId m) (receiverId p) (text m) "sent" in
          (set_pool db s,
           Some {| fl_socket := socket; fl_receiverId := receiverId p; fl_result := res |})
      end
  end.

(** The process: the server state, the open sockets with the [userId]
    each connection handler closed over, and the suspended handlers. *)
Record System := {
  server : Server;
  sessions : gmap SocketId (option string);
  awaiting : list InFlight
}.

Definition boot (db : Database) : System :=
  {| server := initial db; sessions := ∅; awaiting := [] |}.

(** What the event loop can pick up next.  [QuerySettled i] resumes the
    [i]-th suspended handler. *)
Inductive Event :=
  | Connect (socket : SocketId) (userId : option string)
  | Disconnect (socket : SocketId)
  | SendMessage (socket : SocketId) (arg : option Payload) (env : StoreEnv)
  | QuerySettled (i : nat).

(** One turn of the event loop.  Socket ids are unique among open
    sockets, and only an open socket sends or disconnects; an event that
    breaks this is ignored. *)
Definition handle (e : Event) (sys : System) : System :=
  match e with
  | Connect c q =>
      match sessions sys !! c with
      | Some _ => sys
      | None =>
          {| server := on_connection c q (server sys);
             sessions := <[c := q]> (sessions sys);
             awaiting := awaiting sys |}
      end
  | Disconnect c =>
      match sessions sys !! c with
      | Some q =>
          {| server := on_disconnect q (server sys);
             sessions := delete c (sessions sys);
             awaiting := awaiting sys |}
      | None => sys
      end
  | SendMessage c arg env =>
      match sessions sys !! c with
      | Some _ =>
          let '(s, fl) := send_message_begin c arg env (server sys) in
          {| server := s;
             sessions := sessions sys;
             awaiting := awaiting sys ++ option_list fl |}
      | None => sys
      end
  | QuerySettled i =>
      match awaiting sys !! i with
      | Some fl =>
          {| server := send_message_resume (fl_socket fl) (fl_receiverId fl)
                         (fl_result fl) (server sys);
             sessions := sessions sys;
             awaiting := delete i (awaiting sys) |}
      | None => sys
      end
  end.

Definition run (tr : list Event) (sys : System) : System :=
  foldl (λ acc e, handle e acc) sys tr.

(** ** Observations *)

(** What one handler run added to [emitted]. *)
Definition emitted_since (s s' : Server) : list Emission :=
  drop (length (emitted s)) (emitted s').

(** The confirmation: a [socket.emit] on the given socket. *)
Definition is_echo (c : SocketId) (e : Emission) : bool :=
  match e with
  | SocketEmit c' _ _ => bool_decide (c' = c)
  | IoToEmit _ _ _ => false
  end.

(** The delivery: an [io.to(room).emit] to the given room. *)
Definition is_delivery (c : SocketId) (e : Emission) : bool :=
  match e with
  | IoToEmit room _ _ => bool_decide (room = c)
  | SocketEmit _ _ _ => false
  end.

(** Every socket is in the room named by its own id and in no other (the
    server never calls [join]), so a connection receives what is emitted
    on it and what is emitted to the room of its id. *)
Definition received_by (c : SocketId) (es : list Emission) : list Emission :=
  List.filter (λ e, is_echo c e || is_delivery c e) es.

(** What [relay] hands to the receiver: nothing unless the lookup gives a
    truthy socket id. *)
Definition delivery (receiver : option string) (reg : gmap string SocketId)
    (row : MessageRow) : list Emission :=
  match lookup_user receiver reg with
  | Some rs =>
      if truthy rs then [IoToEmit rs "receive_message" (savedMsg row)] else []
  | None => []
  end.

(** A payload that lacks one of the three things a message needs. *)
Definition lacks_required_field (p : Payload) : bool :=
  match message p with
  | None => true
  | Some m =>
      negb (truthy_opt (senderId m)) || negb (truthy_opt (receiverId p))
      || negb (truthy_opt (text m))
  end.

(** The conditions under which the store takes the insert of the
    handler: it is reachable, reads the three parameters, takes ['sent']
    as a status, generates an id that is not in the table, and finds
    sender and receiver among the users. *)
Definition store_accepts (env : StoreEnv) (db : Database)
    (sender receiver text : option string) : bool :=
  reachable env
  && match read_uuid (types db) sender, read_uuid (types db) receiver with
     | Some s, Some r => references_users db s && references_users db r
     | _, _ => false
     end
  && read_text (types db) text
  && varchar_in (types db) 20 "sent"
  && negb (bool_decide (gen_random_uuid env ∈ row_id <$> messages db)).

(** At most one entry per user identifier. *)
Definition one_entry_per_user (reg : gmap string SocketId) : Prop :=
  NoDup (map_to_list reg).*1 ∧
  ∀ u c1 c2, (u, c1) ∈ map_to_list reg → (u, c2) ∈ map_to_list reg → c1 = c2.

(** Every presence entry maps a non-empty identifier to an open socket
    whose connection gave that identifier at its handshake. *)
Definition entries_are_open_sessions (sys : System) : Prop :=
  ∀ u c, onlineUsers (server sys) !! u = Some c →
         truthy u = true ∧ sessions sys !! c = Some (Some u).

(** Socket.IO gives every connection a non-empty id. *)
Definition socket_ids_nonempty (tr : list Event) : Prop :=
  Forall (λ e, match e with
               | Connect c _ => truthy c = true
               | _ => True
               end) tr.

Definition open_sockets_nonempty (sys : System) : Prop :=
  ∀ c q, sessions sys !! c = Some q → truthy c = true.

(** ** Fixtures used by the examples *)

(** Users of the examples, by the canonical text of their ids;
    [mallory] is not in the [users] table. *)
Definition alice : string := "0a11ce00-0000-4000-8000-000000000001".
Definition bob : string := "00000b0b-0000-4000-8000-000000000002".
Definition mallory : string := "0badc0de-0000-4000-8000-000000000003".

Definition is_lower_hex (a : Ascii.ascii) : bool :=
  let n := Ascii.nat_of_ascii a in
  (Nat.leb 48 n && Nat.leb n 57) || (Nat.leb 97 n && Nat.leb n 102).

(** Whether the rest of a text, from position [i] on, is the rest of a
    UUID in canonical form: 36 characters, hyphens at 8, 13, 18 and 23,
    lower-case hexadecimal digits elsewhere. *)
Fixpoint canonical_from (i : nat) (s : string) : bool :=
  match s with
  | EmptyString => Nat.eqb i 36
  | String a s' =>
      (if Nat.eqb i 8 || Nat.eqb i 13 || Nat.eqb i 18 || Nat.eqb i 23
       then Nat.eqb (Ascii.nat_of_ascii a) 45 else is_lower_hex a)
      && canonical_from (S i) s'
  end.

Fixpoint has_nul (s : string) : bool :=
  match s with
  | EmptyString => false
  | String a s' => Nat.eqb (Ascii.nat_of_ascii a) 0 || has_nul s'
  end.

(** The column types of the examples.  They read a UUID in canonical
    lower-case form as itself, take a text without a NUL character and a
    short enough ASCII status, which is what the store does with these,
    and refuse everything else; the examples use nothing else. *)
Definition example_types : ColumnTypes :=
  {| uuid_in := λ t, if canonical_from 0 t then Some t else None;
     text_in := λ t, negb (has_nul t);
     varchar_in := λ n t, Nat.leb (String.length t) n |}.

Definition db0 : Database :=
  {| types := example_types; users := [alice; bob]; messages := [] |}.

Definition env_at (uuid : string) (now : Z) : StoreEnv :=
  {| reachable := true; gen_random_uuid := uuid; current_timestamp := now |}.

Definition outage : StoreEnv :=
  {| reachable := false; gen_random_uuid := "m0"; current_timestamp := 0 |}.

Definition payload (sender receiver txt : string) : Payload :=
  {| message := Some {| senderId := Some sender; text := Some txt |};
     receiverId := Some receiver |}.

(** ** Properties of the store and of the emissions *)

(** [id] is the primary key of [messages]. *)
Definition ids_unique (db : Database) : Prop :=
  NoDup (row_id <$> messages db).

(** Both user columns of every row are NULL or the id of a user. *)
Definition refers_to_users (db : Database) : Prop :=
  Forall (λ row, references_users db (sender_id row) = true
                 ∧ references_users db (receiver_id row) = true)
         (messages db).

Definition emission_event (e : Emission) : string :=
  match e with
  | IoToEmit _ ev _ | SocketEmit _ ev _ => ev
  end.

Definition emission_data (e : Emission) : SavedMsg :=
  match e with
  | IoToEmit _ _ d | SocketEmit _ _ d => d
  end.

(** The rows a suspended handler will see in [result.rows]. *)
Definition answered_rows (fl : InFlight) : list MessageRow :=
  match fl_result fl with
  | QueryRows rows => rows
  | QueryThrows _ => []
  end.

(** Whatever was emitted, and whatever a suspended handler is about to
    relay, is a row of [messages]. *)
Definition stored_before_relayed (sys : System) : Prop :=
  (∀ fl row, fl ∈ awaiting sys → row ∈ answered_rows fl →
             row ∈ messages (pool (server sys)))
  ∧ (∀ e, e ∈ emitted (server sys) →
          emission_event e = "receive_message"
          ∧ ∃ row, row ∈ messages (pool (server sys))
                   ∧ emission_data e = savedMsg row).

(** What the resumed half of [send_message] emits, given the registry
    it finds. *)
Definition resume_emissions (socket : SocketId) (receiver : option string)
    (res : QueryResult) (reg : gmap string SocketId) : list Emission :=
  match res with
  | QueryRows (row :: _) =>
      delivery receiver reg row
        ++ [SocketEmit socket "receive_message" (savedMsg row)]
  | _ => []
  end.

(** What the resumed half of [send_message] writes to the console. *)
Definition resume_console (res : QueryResult) : list ConsoleLine :=
  match res with
  | QueryThrows e => [ErrSaveSendFailed (StoreError e)]
  | QueryRows [] => [ErrSaveSendFailed TypeError]
  | QueryRows (_ :: _) => []
  end.

(** ** The business-profile route

    [app.post('/api/users/:id/business', ...)] is the one route that
    sends more than one statement.  What is modelled is which statements
    the handler sends through [pool.query], in which order, and what it
    answers; each [await pool.query] either yields rows or throws, as the
    store decides. *)

Module Rest.

(** The statements of the route. *)
Inductive Sql :=
  | Begin
  | InsertBusinessProfile (userId : string)
      (name category description website : option string)
  | UpdateUserIsBusiness (userId : string)
  | Commit
  | SelectUser (userId : string)
  | Rollback.

(** The columns the later revision selects from [users]. *)
Record UserRow := {
  u_id : string;
  u_name : string;
  u_email : string;
  u_location : option string;
  u_avatar_url : option string;
  u_is_business : bool;
  u_is_diaspora : bool
}.

(** How one [await pool.query(...)] ends. *)
Inductive Answer :=
  | Rows (rows : list UserRow)
  | Throws.

(** [req.body], destructured into [name], [category], [description] and
    [website]. *)
Record BusinessBody := {
  name : option string;
  category : option string;
  description : option string;
  website : option string
}.

Inductive Json :=
  | JsonMessage (msg : string)
  | JsonError (error : string)
  | JsonUserWithProfile (user : option UserRow)
      (name category description : option string).

(** [res.status(code).json(body)] *)
Record Response := {
  code : nat;
  json : Json
}.

(** A piece of handler code: given the answers of the store (the [k]-th
    answer is for the [k]-th statement of the request) and the statements
    sent so far, the statements sent after it and its value, or [None]
    when it threw. *)
Definition Script (A : Type) : Type :=
  (nat → Answer) → list Sql → list Sql * option A.

#[export] Instance script_ret : MRet Script :=
  λ A a _ log, (log, Some a).

#[export] Instance script_bind : MBind Script :=
  λ A B k m db log,
    match m db log with
    | (log', Some a) => k a db log'
    | (log', None) => (log', None)
    end.

(** [await pool.query(q)] *)
Definition query (q : Sql) : Script (list UserRow) :=
  λ db log,
    (log ++ [q],
     match db (length log) with
     | Rows rows => Some rows
     | Throws => None
     end).

(** [try { body } catch (err) { handler }] *)
Definition try_catch {A} (body handler : Script A) : Script A :=
  λ db log,
    match body db log with
    | (log', Some a) => (log', Some a)
    | (log', None) => handler db log'
    end.

(** The [catch] block of the route, in both revisions. *)
Definition rollback_and_fail : Script Response :=
  query Rollback ;;
  mret {| code := 500; json := JsonError "Failed to create business profile" |}.

(** The route as [src/unnamed/part_000] has it. *)
Definition create_business_profile (userId : string) (b : BusinessBody)
    : Script Response :=
  try_catch
    (query Begin ;;
     query (InsertBusinessProfile userId (name b) (category b) (description b)
              (website b)) ;;
     query (UpdateUserIsBusiness userId) ;;
     query Commit ;;
     mret {| code := 200; json := JsonMessage "Business profile created" |})
    rollback_and_fail.

(** Evaluating an identifier that nothing declares throws a
    [ReferenceError]. *)
Definition undeclared : Script unit :=
  λ _ log, (log, None).

(** The route as [src/server.js] has it: after the commit the user is
    read back, and [result.rows[0]] is spread into the answer.  Between
    the commit and the select the file has the two statements [code] and
    [Code], which name nothing that is declared. *)
Definition create_business_profile_with_user (userId : string)
    (b : BusinessBody) : Script Response :=
  try_catch
    (query Begin ;;
     query (InsertBusinessProfile userId (name b) (category b) (description b)
              (website b)) ;;
     query (UpdateUserIsBusiness userId) ;;
     query Commit ;;
     undeclared ;;
     undeclared ;;
     result ← query (SelectUser userId);
     mret {| code := 200;
             json := JsonUserWithProfile (head result) (name b) (category b)
                       (description b) |})
    rollback_and_fail.

(** One request: the statements sent, and the response, if any. *)
Definition serve (h : Script Response) (db : nat → Answer)
    : list Sql * option Response :=
  h db [].

Definition succeeds (db : nat → Answer) (k : nat) : bool :=
  match db k with
  | Rows _ => true
  | Throws => false
  end.

(** The first of the statements [from], ..., [from + n - 1] that throws. *)
Fixpoint first_throw (db : nat → Answer) (from n : nat) : option nat :=
  match n with
  | O => None
  | S n' => if succeeds db from then first_throw db (S from) n' else Some from
  end.

(** The four statements of the transaction. *)
Definition transaction (userId : string) (b : BusinessBody) : list Sql :=
  [Begin;
   InsertBusinessProfile userId (name b) (category b) (description b) (website b);
   UpdateUserIsBusiness userId;
   Commit].

End Rest.

(** * Facts about the store *)

Section Store.
Context (env : StoreEnv) (db : Database).
Context (sender receiver txt : option string) (st : string).

Lemma read_uuid_value ty v x : read_uuid ty v = Some x → x = uuid_value ty v.
Proof.
  unfold read_uuid, uuid_value. destruct v as [t|]; cbn; [|congruence].
  destruct (uuid_in ty t); cbn; congruence.
Qed.

Lemma insert_message_rows db' rows :
  insert_message env db sender receiver txt st = (db', QueryRows rows) →
  rows = [new_row env (uuid_value (types db) sender)
            (uuid_value (types db) receiver) txt st]
  ∧ users db' = users db
  ∧ messages db'
    = messages db ++ [new_row env (uuid_value (types db) sender)
                        (uuid_value (types db) receiver) txt st]
  ∧ (gen_random_uuid env ∉ row_id <$> messages db)
  ∧ types db' = types db.
Proof.
  unfold insert_message.
  destruct (reachable env); cbn; [|discriminate].
  destruct (read_uuid (types db) sender) as [s|] eqn:Hs; [|discriminate].
  destruct (read_uuid (types db) receiver) as [r|] eqn:Hr; [|discriminate].
  apply read_uuid_value in Hs. apply read_uuid_value in Hr. subst s r.
  destruct (read_text (types db) txt); cbn; [|discriminate].
  destruct (varchar_in (types db) 20 st); cbn; [|discriminate].
  case_bool_decide as Hfresh; [discriminate|].
  destruct (references_users db _ && references_users db _); cbn; [|discriminate].
  intros [= <- <-]. by cbn.
Qed.

Lemma insert_message_throws db' e :
  insert_message env db sender receiver txt st = (db', QueryThrows e) →
  db' = db.
Proof.
  unfold insert_message.
  destruct (reachable env); cbn; [|congruence].
  destruct (read_uuid (types db) sender) as [s|]; [|congruence].
  destruct (read_uuid (types db) receiver) as [r|]; [|congruence].
  repeat (match goal with
          | |- context [if ?b then _ else _] => destruct b; cbn
          end); congruence.
Qed.

Lemma insert_message_accepts :
  store_accepts env db sender receiver txt = true →
  insert_message env db sender receiver txt "sent"
  = ({| types := types db; users := users db;
        messages := messages db
                      ++ [new_row env (uuid_value (types db) sender)
                            (uuid_value (types db) receiver) txt "sent"] |},
     QueryRows [new_row env (uuid_value (types db) sender)
                  (uuid_value (types db) receiver) txt "sent"]).
Proof.
  unfold store_accepts, insert_message.
  rewrite !andb_true_iff, negb_true_iff.
  intros [[[[-> Hrefs] ->] ->] ->]. cbn.
  destruct (read_uuid (types db) sender) as [s|] eqn:Hs; [|discriminate].
  destruct (read_uuid (types db) receiver) as [r|] eqn:Hr; [|discriminate].
  apply read_uuid_value in Hs. apply read_uuid_value in Hr. subst s r.
  by rewrite Hrefs.
Qed.
End Store.

(** * Facts about the handlers *)

Lemma emitted_since_app (s s' : Server) (l : list Emission) :
  emitted s' = emitted s ++ l → emitted_since s s' = l.
Proof. intros E. unfold emitted_since. rewrite E. apply drop_app_length. Qed.

Lemma relay_emitted socket receiver row s :
  emitted (relay socket receiver row s)
  = emitted s ++ delivery receiver (onlineUsers s) row
      ++ [SocketEmit socket "receive_message" (savedMsg row)].
Proof.
  unfold relay, delivery.
  destruct (lookup_user receiver (onlineUsers s)) as [rs|]; simpl.
  - destruct (truthy rs); simpl; by rewrite <- ?app_assoc.
  - done.
Qed.

Lemma relay_frame socket receiver row s :
  onlineUsers (relay socket receiver row s) = onlineUsers s
  ∧ pool (relay socket receiver row s) = pool s
  ∧ console (relay socket receiver row s) = console s.
Proof.
  unfold relay.
  destruct (lookup_user receiver (onlineUsers s)) as [rs|]; simpl; [|done].
  by destruct (truthy rs).
Qed.

Lemma send_message_resume_frame socket receiver res s :
  onlineUsers (send_message_resume socket receiver res s) = onlineUsers s
  ∧ pool (send_message_resume socket receiver res s) = pool s.
Proof.
  destruct res as [[|row rows]|e]; [done| |done].
  destruct (relay_frame socket receiver row s) as (Hreg & Hpool & _).
  by split.
Qed.

(** The handler is its two halves run back to back. *)
Lemma send_message_halves socket p env s :
  (send_message socket (Some p) env s).1
  = match send_message_begin socket (Some p) env s with
    | (s1, Some fl) =>
        send_message_resume (fl_socket fl) (fl_receiverId fl) (fl_result fl) s1
    | (s1, None) => s1
    end.
Proof.
  unfold send_message, send_message_begin.
  destruct (message p) as [m|]; [|done].
  by destruct (insert_message _ _ _ _ _ _).
Qed.

(** An invocation whose insert succeeds. *)
Lemma send_message_stored socket p m env s db row :
  message p = Some m →
  insert_message env (pool s) (senderId m) (receiverId p) (text m) "sent"
    = (db, QueryRows [row]) →
  send_message socket (Some p) env s
  = (relay socket (receiverId p) row (set_pool db s), Fulfilled).
Proof. intros Hm Hq. unfold send_message. by rewrite Hm, Hq. Qed.

Lemma filter_echo_delivery c receiver reg row :
  List.filter (is_echo c) (delivery receiver reg row) = [].
Proof.
  unfold delivery. destruct (lookup_user receiver reg) as [rs|]; [|done].
  by destruct (truthy rs).
Qed.

Lemma send_message_stored_emitted socket p m env s db row :
  message p = Some m →
  insert_message env (pool s) (senderId m) (receiverId p) (text m) "sent"
    = (db, QueryRows [row]) →
  emitted_since s (send_message socket (Some p) env s).1
  = delivery (receiverId p) (onlineUsers s) row
      ++ [SocketEmit socket "receive_message" (savedMsg row)].
Proof.
  intros Hm Hq. rewrite (send_message_stored _ _ _ _ _ _ _ Hm Hq). cbn [fst].
  apply emitted_since_app. by rewrite relay_emitted.
Qed.

Lemma send_message_stored_pool socket p m env s db row :
  message p = Some m →
  insert_message env (pool s) (senderId m) (receiverId p) (text m) "sent"
    = (db, QueryRows [row]) →
  pool (send_message socket (Some p) env s).1 = db.
Proof.
  intros Hm Hq. rewrite (send_message_stored _ _ _ _ _ _ _ Hm Hq). cbn [fst].
  by destruct (relay_frame socket (receiverId p) row (set_pool db s)) as (_ & -> & _).
Qed.

Lemma one_echo socket receiver reg row :
  List.filter (is_echo socket)
    (delivery receiver reg row ++ [SocketEmit socket "receive_message" (savedMsg row)])
  = [SocketEmit socket "receive_message" (savedMsg row)].
Proof.
  rewrite List.filter_app, filter_echo_delivery. simpl.
  by rewrite bool_decide_eq_true_2.
Qed.

(** * The message relay *)

Lemma received_by_relay socket receiver reg row :
  received_by socket
    (delivery receiver reg row ++ [SocketEmit socket "receive_message" (savedMsg row)])
  = if bool_decide (lookup_user receiver reg = Some socket) && truthy socket
    then [IoToEmit socket "receive_message" (savedMsg row);
          SocketEmit socket "receive_message" (savedMsg row)]
    else [SocketEmit socket "receive_message" (savedMsg row)].
Proof.
  unfold received_by, delivery. rewrite List.filter_app. cbn.
  rewrite (bool_decide_eq_true_2 (socket = socket)) by done. cbn.
  destruct (lookup_user receiver reg) as [rs|]; [|done].
  destruct (decide (rs = socket)) as [->|Hne].
  - rewrite (bool_decide_eq_true_2 (Some socket = Some socket)) by done. cbn.
    destruct (truthy socket); [|done]. cbn.
    by rewrite (bool_decide_eq_true_2 (socket = socket)) by done.
  - rewrite (bool_decide_eq_false_2 (Some rs = Some socket)) by congruence. cbn.
    destruct (truthy rs); [|done]. cbn.
    by rewrite (bool_decide_eq_false_2 (rs = socket)) by done.
Qed.

(** C1, as the handler has it.  A [send_message] with a sender, a
    receiver and a non-empty text whose insert succeeds appends exactly
    one row to [messages], with status [sent] and the values the store
    read from the payload, and emits exactly one confirmation, on the
    sending socket and on no other, whether or not the receiver was
    delivered to.  The confirmation carries the row itself, with [text]
    set to its content, [timestamp] to its creation time and [type] to
    [text].  It is the only event the sending connection gets, unless
    the registry maps the receiver to the sending connection: then that
    connection gets the delivery as well, two events in all. *)
Theorem send_message_persists_once_echoes_once
    (socket : SocketId) (p : Payload) (m : Message) (env : StoreEnv)
    (s : Server) (db : Database) (row : MessageRow) :
  message p = Some m →
  lacks_required_field p = false →
  insert_message env (pool s) (senderId m) (receiverId p) (text m) "sent"
    = (db, QueryRows [row]) →
  let s' := (send_message socket (Some p) env s).1 in
  let es := emitted_since s s' in
  let data := {| sm_row := row; sm_text := content row;
                 sm_timestamp := created_at row; sm_type := "text" |} in
  messages (pool s') = messages (pool s) ++ [row]
  ∧ status row = "sent"
  ∧ sender_id row = uuid_value (types (pool s)) (senderId m)
  ∧ receiver_id row = uuid_value (types (pool s)) (receiverId p)
  ∧ content row = text m
  ∧ es = delivery (receiverId p) (onlineUsers s) row
           ++ [SocketEmit socket "receive_message" data]
  ∧ List.filter (is_echo socket) es = [SocketEmit socket "receive_message" data]
  ∧ (∀ c, c ≠ socket → List.filter (is_echo c) es = [])
  ∧ received_by socket es
    = if bool_decide (lookup_user (receiverId p) (onlineUsers s) = Some socket)
         && truthy socket
      then [IoToEmit socket "receive_message" data;
            SocketEmit socket "receive_message" data]
      else [SocketEmit socket "receive_message" data].
Proof.
  intros Hm _ Hq s' es data. subst s' es data.
  rewrite (send_message_stored_pool _ _ _ _ _ _ _ Hm Hq).
  rewrite (send_message_stored_emitted _ _ _ _ _ _ _ Hm Hq).
  destruct (insert_message_rows _ _ _ _ _ _ _ _ Hq) as (Hrow & _ & Hmsgs & _).
  injection Hrow as ->.
  change {| sm_row := ?r; sm_text := content ?r;
            sm_timestamp := created_at ?r; sm_type := "text" |}
    with (savedMsg r).
  repeat split; try done.
  - apply one_echo.
  - intros c Hc. rewrite List.filter_app, filter_echo_delivery. cbn.
    by rewrite bool_decide_eq_false_2.
  - apply received_by_relay.
Qed.

Lemma send_message_persists_once_echoes_once_witness :
  let s := on_connection "sockB" (Some bob) (initial db0) in
  let row := new_row (env_at "m1" 1000) (Some alice) (Some bob) (Some "hi") "sent" in
  let s' := (send_message "sockA" (Some (payload alice bob "hi"))
               (env_at "m1" 1000) s).1 in
  let es := emitted_since s s' in
  let data := {| sm_row := row; sm_text := Some "hi";
                 sm_timestamp := 1000; sm_type := "text" |} in
  messages (pool s') = messages (pool s) ++ [row]
  ∧ status row = "sent"
  ∧ sender_id row = Some alice
  ∧ receiver_id row = Some bob
  ∧ content row = Some "hi"
  ∧ es = [IoToEmit "sockB" "receive_message" data;
          SocketEmit "sockA" "receive_message" data]
  ∧ List.filter (is_echo "sockA") es = [SocketEmit "sockA" "receive_message" data]
  ∧ (∀ c, c ≠ "sockA" → List.filter (is_echo c) es = [])
  ∧ received_by "sockA" es = [SocketEmit "sockA" "receive_message" data].
Proof.
  intros s row.
  apply (send_message_persists_once_echoes_once "sockA"
           (payload alice bob "hi")
           {| senderId := Some alice; text := Some "hi" |}
           (env_at "m1" 1000) s
           {| types := types db0; users := users db0; messages := [row] |} row);
    reflexivity.
Defined.

(** C1 fails as stated: [alice], registered on [sockA], writes to
    herself with a non-empty text; the insert succeeds and one row is
    stored, and her connection, the sender's own, gets two
    [receive_message] events with the payload of that row, not one. *)
Lemma sender_of_self_message_gets_two_events :
  let s := on_connection "sockA" (Some alice) (initial db0) in
  let p := payload alice alice "hi" in
  let row := new_row (env_at "m1" 1000) (Some alice) (Some alice) (Some "hi") "sent" in
  let s' := (send_message "sockA" (Some p) (env_at "m1" 1000) s).1 in
  lacks_required_field p = false
  ∧ insert_message (env_at "m1" 1000) (pool s) (Some alice) (Some alice)
      (Some "hi") "sent"
    = ({| types := types db0; users := users db0; messages := [row] |},
       QueryRows [row])
  ∧ messages (pool s') = [row]
  ∧ received_by "sockA" (emitted_since s s')
    = [IoToEmit "sockA" "receive_message" (savedMsg row);
       SocketEmit "sockA" "receive_message" (savedMsg row)]
  ∧ length (received_by "sockA" (emitted_since s s')) ≠ 1%nat.
Proof.
  repeat split; try reflexivity.
  vm_compute. intros H. discriminate H.
Qed.

(** C3.  When the insert fails, the handler emits nothing, neither to
    the sender nor to the receiver, leaves the store as it was, logs the
    error and settles normally. *)
Theorem send_message_store_failure_is_silent
    (socket : SocketId) (p : Payload) (m : Message) (env : StoreEnv)
    (s : Server) (db : Database) (e : PgError) :
  message p = Some m →
  insert_message env (pool s) (senderId m) (receiverId p) (text m) "sent"
    = (db, QueryThrows e) →
  send_message socket (Some p) env s
  = (console_write (ErrSaveSendFailed (StoreError e)) s, Fulfilled)
  ∧ emitted_since s (send_message socket (Some p) env s).1 = []
  ∧ pool (send_message socket (Some p) env s).1 = pool s
  ∧ (send_message socket (Some p) env s).2 = Fulfilled.
Proof.
  intros Hm Hq.
  assert (db = pool s) as -> by exact (insert_message_throws _ _ _ _ _ _ _ _ Hq).
  assert (send_message socket (Some p) env s
          = (console_write (ErrSaveSendFailed (StoreError e)) s, Fulfilled)) as ->.
  { unfold send_message. rewrite Hm, Hq. simpl.
    by destruct s as [reg [ty us ms] em co]. }
  repeat split. simpl. apply emitted_since_app. by rewrite app_nil_r.
Qed.

Lemma send_message_store_failure_is_silent_witness :
  let s := on_connection "sockB" (Some bob) (initial db0) in
  send_message "sockA" (Some (payload alice bob "hi")) outage s
  = (console_write (ErrSaveSendFailed (StoreError ConnectionError)) s, Fulfilled)
  ∧ emitted_since s (send_message "sockA" (Some (payload alice bob "hi")) outage s).1 = []
  ∧ pool (send_message "sockA" (Some (payload alice bob "hi")) outage s).1 = pool s
  ∧ (send_message "sockA" (Some (payload alice bob "hi")) outage s).2 = Fulfilled.
Proof.
  intros s.
  apply (send_message_store_failure_is_silent "sockA"
           (payload alice bob "hi")
           {| senderId := Some alice; text := Some "hi" |}
           outage s db0 ConnectionError); reflexivity.
Defined.

(** C2, as the handler has it.  The handler checks none of [senderId],
    [receiverId] and [text].  A payload without a [message] object fails
    on [message.senderId] before any query: nothing is stored and nothing
    emitted.  With a [message] object the three values go to the insert
    as they are, a missing one as NULL and an empty text as the empty
    string, and whenever the store accepts the row it is stored, with
    the values the store read, and relayed like any other. *)
Theorem send_message_checks_no_field
    (socket : SocketId) (p : Payload) (env : StoreEnv) (s : Server) :
  let s' := (send_message socket (Some p) env s).1 in
  (message p = None → pool s' = pool s ∧ emitted s' = emitted s)
  ∧ (∀ m, message p = Some m →
       store_accepts env (pool s) (senderId m) (receiverId p) (text m) = true →
       let row := new_row env (uuid_value (types (pool s)) (senderId m))
                    (uuid_value (types (pool s)) (receiverId p)) (text m) "sent" in
       messages (pool s') = messages (pool s) ++ [row]
       ∧ emitted_since s s'
         = delivery (receiverId p) (onlineUsers s) row
             ++ [SocketEmit socket "receive_message" (savedMsg row)]).
Proof.
  intros s'. subst s'. split.
  - intros Hm. unfold send_message. by rewrite Hm.
  - intros m Hm Hok row.
    pose proof (insert_message_accepts env (pool s) (senderId m) (receiverId p)
                  (text m) Hok) as Hq.
    rewrite (send_message_stored_pool _ _ _ _ _ _ _ Hm Hq).
    by rewrite (send_message_stored_emitted _ _ _ _ _ _ _ Hm Hq).
Qed.

Lemma send_message_checks_no_field_witness :
  let p := {| message := Some {| senderId := None; text := Some "" |};
              receiverId := Some bob |} in
  let s := initial db0 in
  let s' := (send_message "sockA" (Some p) (env_at "m1" 1000) s).1 in
  let row := new_row (env_at "m1" 1000) None (Some bob) (Some "") "sent" in
  messages (pool s') = messages (pool s) ++ [row]
  ∧ emitted_since s s'
    = delivery (Some bob) (onlineUsers s) row
        ++ [SocketEmit "sockA" "receive_message" (savedMsg row)].
Proof.
  intros p s.
  apply (proj2 (send_message_checks_no_field "sockA" p (env_at "m1" 1000) s)
           {| senderId := None; text := Some "" |}); reflexivity.
Defined.

(** C2 fails as stated: a message with an empty text from [alice] to
    [bob] is stored, delivered to [bob] and confirmed to [alice]. *)
Lemma empty_text_is_stored_and_relayed :
  let p := payload alice bob "" in
  let s := on_connection "sockB" (Some bob) (initial db0) in
  let s' := (send_message "sockA" (Some p) (env_at "m1" 1000) s).1 in
  let row := new_row (env_at "m1" 1000) (Some alice) (Some bob) (Some "") "sent" in
  lacks_required_field p = true
  ∧ messages (pool s) = [] ∧ messages (pool s') = [row]
  ∧ emitted s = []
  ∧ emitted s' = [IoToEmit "sockB" "receive_message" (savedMsg row);
                  SocketEmit "sockA" "receive_message" (savedMsg row)]
  ∧ ¬ (messages (pool s') = messages (pool s) ∨ emitted_since s s' = []).
Proof.
  repeat split; try reflexivity.
  vm_compute. intros [H|H]; discriminate H.
Qed.

(** C4, as the handler has it.  [s] is the state at the moment the
    handler resumes with the stored row.  The resumed half leaves the
    store alone.  When the registry maps the receiver to a socket id, it
    emits exactly one [receive_message] to that id, then the
    confirmation; the payload has the content and the id of the row.  So
    the receiver's connection gets one event, unless it is the sending
    connection, which gets the delivery and the confirmation.  When the
    registry has no entry, the confirmation is all that is emitted, and
    no connection but the sender's gets anything. *)
Theorem resume_delivers_to_registered_receiver
    (socket : SocketId) (receiver : option string)
    (row : MessageRow) (rows : list MessageRow) (s : Server) :
  map_Forall (λ _ c, truthy c = true) (onlineUsers s) →
  let s' := send_message_resume socket receiver (QueryRows (row :: rows)) s in
  let es := emitted_since s s' in
  pool s' = pool s
  ∧ sm_text (savedMsg row) = content row
  ∧ row_id (sm_row (savedMsg row)) = row_id row
  ∧ match lookup_user receiver (onlineUsers s) with
    | Some rs =>
        es = [IoToEmit rs "receive_message" (savedMsg row);
              SocketEmit socket "receive_message" (savedMsg row)]
        ∧ List.filter (is_delivery rs) es
          = [IoToEmit rs "receive_message" (savedMsg row)]
        ∧ received_by rs es
          = if bool_decide (rs = socket)
            then [IoToEmit rs "receive_message" (savedMsg row);
                  SocketEmit socket "receive_message" (savedMsg row)]
            else [IoToEmit rs "receive_message" (savedMsg row)]
    | None =>
        es = [SocketEmit socket "receive_message" (savedMsg row)]
        ∧ ∀ c, c ≠ socket → received_by c es = []
    end.
Proof.
  intros Hids s' es. subst s' es. cbn [send_message_resume].
  destruct (relay_frame socket receiver row s) as (_ & Hpool & _).
  split; [done|]. split; [done|]. split; [done|].
  rewrite (emitted_since_app s _ _ (relay_emitted socket receiver row s)).
  unfold delivery.
  destruct (lookup_user receiver (onlineUsers s)) as [rs|] eqn:Hlook.
  - assert (truthy rs = true) as ->.
    { destruct receiver as [u|]; [|done]. exact (Hids u rs Hlook). }
    split; [done|]. unfold received_by. cbn.
    rewrite (bool_decide_eq_true_2 (rs = rs)) by done.
    split; [done|]. rewrite orb_false_r.
    rewrite (bool_decide_ext (socket = rs) (rs = socket)) by done.
    by case_bool_decide.
  - split; [done|]. intros c Hc. unfold received_by. cbn.
    rewrite (bool_decide_eq_false_2 (socket = c)) by done. done.
Qed.

Lemma resume_delivers_to_registered_receiver_witness :
  let s := on_connection "sockB" (Some bob) (initial db0) in
  let row := new_row (env_at "m1" 1000) (Some alice) (Some bob) (Some "hi") "sent" in
  let s' := send_message_resume "sockA" (Some bob) (QueryRows [row]) s in
  let es := emitted_since s s' in
  pool s' = pool s
  ∧ sm_text (savedMsg row) = content row
  ∧ row_id (sm_row (savedMsg row)) = row_id row
  ∧ es = [IoToEmit "sockB" "receive_message" (savedMsg row);
          SocketEmit "sockA" "receive_message" (savedMsg row)]
  ∧ List.filter (is_delivery "sockB") es
    = [IoToEmit "sockB" "receive_message" (savedMsg row)]
  ∧ received_by "sockB" es = [IoToEmit "sockB" "receive_message" (savedMsg row)].
Proof.
  intros s row.
  apply (resume_delivers_to_registered_receiver "sockA" (Some bob) row [] s).
  apply (bool_decide_unpack _). vm_compute. exact I.
Defined.

(** C4 fails as stated: [alice], registered on [sockA], writes to
    herself; the row is stored, the registry has her at the lookup, and
    her connection gets two [receive_message] events for the one row. *)
Lemma message_to_self_is_received_twice :
  let sys := run [Connect "sockA" (Some alice);
                  SendMessage "sockA" (Some (payload alice alice "hi"))
                    (env_at "m1" 1000)] (boot db0) in
  let sys' := handle (QuerySettled 0) sys in
  let row := new_row (env_at "m1" 1000) (Some alice) (Some alice) (Some "hi") "sent" in
  lookup_user (Some alice) (onlineUsers (server sys)) = Some "sockA"
  ∧ messages (pool (server sys')) = [row]
  ∧ received_by "sockA" (emitted_since (server sys) (server sys'))
    = [IoToEmit "sockA" "receive_message" (savedMsg row);
       SocketEmit "sockA" "receive_message" (savedMsg row)]
  ∧ length (received_by "sockA" (emitted_since (server sys) (server sys'))) ≠ 1%nat.
Proof.
  repeat split; try reflexivity.
  vm_compute. intros H. discriminate H.
Qed.

(** C10.  The confirmation goes out on the sending socket itself, not
    on what the registry has for [senderId]: when the registry has no
    entry for the sender, or maps the sender to another socket, a stored
    message is still confirmed on the sending socket, as the last
    emission of the handler and exactly once, and no other socket gets a
    confirmation. *)
Theorem confirmation_does_not_use_registry
    (socket : SocketId) (p : Payload) (m : Message) (env : StoreEnv)
    (s : Server) (db : Database) (row : MessageRow) :
  message p = Some m →
  insert_message env (pool s) (senderId m) (receiverId p) (text m) "sent"
    = (db, QueryRows [row]) →
  lookup_user (senderId m) (onlineUsers s) ≠ Some socket →
  let s' := (send_message socket (Some p) env s).1 in
  last (emitted s') = Some (SocketEmit socket "receive_message" (savedMsg row))
  ∧ List.filter (is_echo socket) (emitted_since s s')
    = [SocketEmit socket "receive_message" (savedMsg row)]
  ∧ ∀ c, c ≠ socket → List.filter (is_echo c) (emitted_since s s') = [].
Proof.
  intros Hm Hq _ s'. subst s'.
  rewrite (send_message_stored_emitted _ _ _ _ _ _ _ Hm Hq).
  rewrite (send_message_stored _ _ _ _ _ _ _ Hm Hq). cbn [fst].
  rewrite relay_emitted, app_assoc, last_snoc.
  split; [done|]. split; [apply one_echo|].
  intros c Hc. rewrite List.filter_app, filter_echo_delivery. cbn.
  by rewrite bool_decide_eq_false_2.
Qed.

Lemma confirmation_does_not_use_registry_witness :
  let s := server (run [Connect "old" (Some alice); Connect "new" (Some alice)]
                     (boot db0)) in
  let row := new_row (env_at "m1" 1000) (Some alice) (Some bob) (Some "hi") "sent" in
  let s' := (send_message "old" (Some (payload alice bob "hi"))
               (env_at "m1" 1000) s).1 in
  onlineUsers s !! alice = Some "new"
  ∧ last (emitted s') = Some (SocketEmit "old" "receive_message" (savedMsg row))
  ∧ List.filter (is_echo "old") (emitted_since s s')
    = [SocketEmit "old" "receive_message" (savedMsg row)]
  ∧ ∀ c, c ≠ "old" → List.filter (is_echo c) (emitted_since s s') = [].
Proof.
  intros s row. split; [reflexivity|].
  apply (confirmation_does_not_use_registry "old" (payload alice bob "hi")
           {| senderId := Some alice; text := Some "hi" |}
           (env_at "m1" 1000) s
           {| types := types db0; users := users db0; messages := [row] |} row).
  - reflexivity.
  - reflexivity.
  - vm_compute. discriminate.
Defined.

Lemma insert_message_rows_accepted env db sender receiver txt db' rows :
  insert_message env db sender receiver txt "sent" = (db', QueryRows rows) →
  store_accepts env db sender receiver txt = true.
Proof.
  unfold insert_message, store_accepts.
  destruct (reachable env); cbn; [|discriminate].
  destruct (read_uuid (types db) sender) as [s|]; [|discriminate].
  destruct (read_uuid (types db) receiver) as [r|]; [|discriminate].
  destruct (read_text (types db) txt); cbn; [|discriminate].
  destruct (varchar_in (types db) 20 "sent"); cbn; [|discriminate].
  case_bool_decide; [discriminate|].
  by destruct (references_users db s && references_users db r).
Qed.

(** C8.  The relay does not deduplicate: when a [send_message] was
    stored and the same payload is sent again, the second insert is
    taken as soon as the store is reachable and generates an id that is
    not in the table, and then the table holds two rows for the two
    invocations, equal in sender, receiver and content and different in
    id. *)
Theorem send_message_twice_stores_two_rows
    (socket : SocketId) (p : Payload) (m : Message) (env1 env2 : StoreEnv)
    (s : Server) (db1 : Database) (row1 : MessageRow) :
  message p = Some m →
  insert_message env1 (pool s) (senderId m) (receiverId p) (text m) "sent"
    = (db1, QueryRows [row1]) →
  reachable env2 = true →
  gen_random_uuid env2 ∉ row_id <$> messages db1 →
  let s1 := (send_message socket (Some p) env1 s).1 in
  let s2 := (send_message socket (Some p) env2 s1).1 in
  let row2 := new_row env2 (uuid_value (types (pool s)) (senderId m))
                (uuid_value (types (pool s)) (receiverId p)) (text m) "sent" in
  messages (pool s2) = messages (pool s) ++ [row1; row2]
  ∧ row_id row1 ≠ row_id row2
  ∧ row1 ≠ row2
  ∧ sender_id row1 = sender_id row2
  ∧ receiver_id row1 = receiver_id row2
  ∧ content row1 = content row2.
Proof.
  intros Hm Hq1 Hup Hfresh s1 s2 row2.
  assert (pool s1 = db1) as Hs1
    by exact (send_message_stored_pool _ _ _ _ _ _ _ Hm Hq1).
  destruct (insert_message_rows _ _ _ _ _ _ _ _ Hq1)
    as (Hrow & Husers & Hmsgs & _ & Htypes).
  injection Hrow as ->.
  pose proof (insert_message_rows_accepted _ _ _ _ _ _ _ Hq1) as Hok1.
  assert (store_accepts env2 (pool s1) (senderId m) (receiverId p) (text m) = true)
    as Hok2.
  { rewrite Hs1. unfold store_accepts, references_users in *.
    rewrite Htypes, Husers, Hup.
    rewrite !andb_true_iff in Hok1. destruct Hok1 as [[[[_ ->] ->] ->] _].
    cbn. by rewrite bool_decide_eq_false_2. }
  pose proof (insert_message_accepts env2 (pool s1) (senderId m) (receiverId p)
                (text m) Hok2) as Hq2.
  rewrite Hs1, Htypes in Hq2. fold row2 in Hq2. rewrite <- Hs1 in Hq2.
  assert (row_id (new_row env1 (uuid_value (types (pool s)) (senderId m))
                    (uuid_value (types (pool s)) (receiverId p)) (text m) "sent")
          ≠ row_id row2) as Hne.
  { intros Heq. apply Hfresh. rewrite Hmsgs, fmap_app.
    apply elem_of_app. right. cbn in *. rewrite Heq. by left. }
  split; [|split; [done|split; [congruence|done]]].
  subst s2. rewrite (send_message_stored_pool _ _ _ _ _ _ _ Hm Hq2). cbn.
  rewrite Hs1, Hmsgs. by rewrite <- app_assoc.
Qed.

Lemma send_message_twice_stores_two_rows_witness :
  let p := payload alice bob "hi" in
  let s := initial db0 in
  let s1 := (send_message "sockA" (Some p) (env_at "m1" 1000) s).1 in
  let s2 := (send_message "sockA" (Some p) (env_at "m2" 1001) s1).1 in
  let row1 := new_row (env_at "m1" 1000) (Some alice) (Some bob) (Some "hi") "sent" in
  let row2 := new_row (env_at "m2" 1001) (Some alice) (Some bob) (Some "hi") "sent" in
  messages (pool s2) = messages (pool s) ++ [row1; row2]
  ∧ row_id row1 ≠ row_id row2
  ∧ row1 ≠ row2
  ∧ sender_id row1 = sender_id row2
  ∧ receiver_id row1 = receiver_id row2
  ∧ content row1 = content row2.
Proof.
  intros p s s1 s2 row1 row2.
  apply (send_message_twice_stores_two_rows "sockA" p
           {| senderId := Some alice; text := Some "hi" |}
           (env_at "m1" 1000) (env_at "m2" 1001) s
           {| types := types db0; users := users db0; messages := [row1] |} row1).
  - reflexivity.
  - reflexivity.
  - reflexivity.
  - apply (bool_decide_unpack _). vm_compute. exact I.
Defined.

(** C9.  [send_message] never changes the registry, whether it stores,
    fails at the store, or stops at a missing [message] or a missing
    argument; in the event loop neither half of it does, so that only
    connects and disconnects can change it. *)
Theorem send_message_leaves_registry
    (socket : SocketId) (arg : option Payload) (env : StoreEnv) (s : Server)
    (e : Event) (sys : System) :
  onlineUsers (send_message socket arg env s).1 = onlineUsers s
  ∧ match e with
    | SendMessage _ _ _ | QuerySettled _ =>
        onlineUsers (server (handle e sys)) = onlineUsers (server sys)
    | Connect _ _ | Disconnect _ => True
    end.
Proof.
  split.
  - destruct arg as [p|]; [|done]. unfold send_message.
    destruct (message p) as [m|]; [|done].
    destruct (insert_message _ _ _ _ _ _) as [db res]. cbn [fst].
    by destruct (send_message_resume_frame socket (receiverId p) res (set_pool db s))
      as [-> _].
  - destruct e as [c q|c|c a en|i]; try done.
    + cbn [handle]. destruct (sessions sys !! c); [|done].
      unfold send_message_begin. destruct a as [p|]; [|done].
      destruct (message p) as [m|]; [|done].
      by destruct (insert_message _ _ _ _ _ _).
    + cbn [handle]. destruct (awaiting sys !! i) as [fl|]; [|done]. cbn [server].
      by destruct (send_message_resume_frame (fl_socket fl) (fl_receiverId fl)
                     (fl_result fl) (server sys)) as [-> _].
Qed.

(** * The presence registry *)

Lemma on_connection_registry socket u s :
  truthy u = true →
  onlineUsers (on_connection socket (Some u) s) = register u socket (onlineUsers s).
Proof. intros Hu. unfold on_connection. by rewrite Hu. Qed.

Lemma on_disconnect_registry u s :
  truthy u = true →
  onlineUsers (on_disconnect (Some u) s) = unregister u (onlineUsers s).
Proof. intros Hu. unfold on_disconnect. by rewrite Hu. Qed.

(** C5.  [register] is last-write-wins: after [register u c1] and then
    [register u c2] the lookup of [u] gives [c2], and not [c1] when the
    two handles differ; the second call overwrites whatever was there,
    so the registry is the one a single [register u c2] gives; and this
    is what two connects with the identifier [u] do to [onlineUsers]. *)
Theorem register_last_write_wins
    (u : string) (c1 c2 : SocketId) (reg : gmap string SocketId) (s : Server) :
  lookup_user (Some u) (register u c2 (register u c1 reg)) = Some c2
  ∧ (c1 ≠ c2 → lookup_user (Some u) (register u c2 (register u c1 reg)) ≠ Some c1)
  ∧ register u c2 (register u c1 reg) = register u c2 reg
  ∧ (truthy u = true →
     onlineUsers (on_connection c2 (Some u) (on_connection c1 (Some u) s))
     = register u c2 (register u c1 (onlineUsers s))).
Proof.
  unfold register, lookup_user.
  rewrite lookup_insert_eq, insert_insert_eq.
  repeat split; [congruence|].
  intros Hu. rewrite !on_connection_registry by done.
  unfold register. by rewrite insert_insert_eq.
Qed.

Lemma register_last_write_wins_witness :
  let s := initial db0 in
  let s' := on_connection "s2" (Some alice) (on_connection "s1" (Some alice) s) in
  lookup_user (Some alice) (onlineUsers s') = Some "s2"
  ∧ lookup_user (Some alice) (onlineUsers s') ≠ Some "s1".
Proof.
  intros s s'.
  destruct (register_last_write_wins alice "s1" "s2" (onlineUsers s) s)
    as (Hget & Hnot & _ & Hconn).
  assert (onlineUsers s' = register alice "s2" (register alice "s1" (onlineUsers s)))
    as -> by (apply Hconn; reflexivity).
  split; [exact Hget|]. apply Hnot. discriminate.
Defined.

(** C6, as the handler has it.  The disconnect handler unregisters by
    user identifier alone: when the closing connection gave a non-empty
    identifier at its handshake, the entry of that identifier is removed,
    whether it maps the closing connection or a newer one, and every
    other entry stays; a connection that gave none removes nothing. *)
Theorem disconnect_unregisters_by_user_alone
    (sys : System) (c : SocketId) (q : option string) :
  sessions sys !! c = Some q →
  let reg := onlineUsers (server sys) in
  let reg' := onlineUsers (server (handle (Disconnect c) sys)) in
  match q with
  | Some u =>
      if truthy u
      then lookup_user (Some u) reg' = None
           ∧ ∀ v, v ≠ u → lookup_user (Some v) reg' = lookup_user (Some v) reg
      else reg' = reg
  | None => reg' = reg
  end.
Proof.
  intros Hc reg reg'. subst reg reg'. cbn [handle]. rewrite Hc. cbn [server].
  destruct q as [u|]; [|done].
  destruct (truthy u) eqn:Hu.
  - rewrite on_disconnect_registry by done. unfold unregister, lookup_user.
    split; [apply lookup_delete_eq|].
    intros v Hv. by apply lookup_delete_ne.
  - unfold on_disconnect. by rewrite Hu.
Qed.

Lemma disconnect_unregisters_by_user_alone_witness :
  let sys := run [Connect "s1" (Some alice); Connect "s2" (Some bob)] (boot db0) in
  let reg := onlineUsers (server sys) in
  let reg' := onlineUsers (server (handle (Disconnect "s1") sys)) in
  lookup_user (Some alice) reg = Some "s1"
  ∧ lookup_user (Some alice) reg' = None
  ∧ ∀ v, v ≠ alice → lookup_user (Some v) reg' = lookup_user (Some v) reg.
Proof.
  intros sys. split; [reflexivity|].
  apply (disconnect_unregisters_by_user_alone sys "s1" (Some alice)).
  reflexivity.
Defined.

(** C6 fails as stated: [alice] connects on [s1], then on [s2]; when the
    superseded [s1] closes, the entry that maps her to the open [s2] is
    removed. *)
Lemma stale_disconnect_removes_newer_entry :
  let sys := run [Connect "s1" (Some alice); Connect "s2" (Some alice)] (boot db0) in
  let sys' := handle (Disconnect "s1") sys in
  onlineUsers (server sys) !! alice = Some "s2"
  ∧ sessions sys !! "s1" = Some (Some alice)
  ∧ sessions sys' !! "s2" = Some (Some alice)
  ∧ onlineUsers (server sys') !! alice = None
  ∧ onlineUsers (server sys') ≠ onlineUsers (server sys).
Proof.
  repeat split; try reflexivity.
  intros H. apply (f_equal (λ reg : gmap string SocketId, reg !! alice)) in H.
  vm_compute in H. discriminate H.
Qed.

Lemma one_entry_per_user_map (reg : gmap string SocketId) : one_entry_per_user reg.
Proof.
  split; [apply NoDup_fst_map_to_list|].
  intros u c1 c2 H1 H2.
  apply elem_of_map_to_list in H1. apply elem_of_map_to_list in H2. congruence.
Qed.

(** The two halves of [send_message] touch neither the registry nor the
    open sockets. *)
Lemma handle_relay_frame e sys :
  match e with
  | SendMessage _ _ _ | QuerySettled _ =>
      onlineUsers (server (handle e sys)) = onlineUsers (server sys)
      ∧ sessions (handle e sys) = sessions sys
  | Connect _ _ | Disconnect _ => True
  end.
Proof.
  destruct e as [c q|c|c a en|i]; try done; cbn [handle].
  - destruct (sessions sys !! c); [|done].
    unfold send_message_begin. destruct a as [p|]; [|done].
    destruct (message p) as [m|]; [|done].
    by destruct (insert_message _ _ _ _ _ _).
  - destruct (awaiting sys !! i) as [fl|]; [|done]. cbn [server sessions].
    by destruct (send_message_resume_frame (fl_socket fl) (fl_receiverId fl)
                   (fl_result fl) (server sys)) as [-> _].
Qed.

Lemma handle_entries_are_open_sessions e sys :
  entries_are_open_sessions sys → entries_are_open_sessions (handle e sys).
Proof.
  intros Inv. destruct e as [c q|c|c a en|i].
  - cbn [handle]. destruct (sessions sys !! c) as [q0|] eqn:Hc; [done|].
    assert (∀ u c', onlineUsers (server sys) !! u = Some c' →
                    truthy u = true ∧ <[c:=q]> (sessions sys) !! c' = Some (Some u))
      as Hold.
    { intros u c' Hu. destruct (Inv u c' Hu) as [Ht Hs]. split; [done|].
      rewrite lookup_insert_ne; [done|]. intros ->. congruence. }
    intros u c'. cbn [server sessions].
    destruct q as [v|]; [|apply Hold].
    destruct (truthy v) eqn:Hv; [|unfold on_connection; rewrite Hv; apply Hold].
    rewrite on_connection_registry by done. unfold register.
    destruct (decide (v = u)) as [->|Hne].
    + rewrite lookup_insert_eq. intros [= <-]. by rewrite lookup_insert_eq.
    + rewrite lookup_insert_ne by done. apply Hold.
  - cbn [handle]. destruct (sessions sys !! c) as [q|] eqn:Hc; [|done].
    intros u c'. cbn [server sessions].
    assert (onlineUsers (server sys) !! u = Some c' → q ≠ Some u →
            truthy u = true ∧ delete c (sessions sys) !! c' = Some (Some u))
      as Hold.
    { intros Hu Hq. destruct (Inv u c' Hu) as [Ht Hs]. split; [done|].
      rewrite lookup_delete_ne; [done|]. intros ->. congruence. }
    destruct q as [v|]; [|intros Hu; by apply Hold].
    destruct (truthy v) eqn:Hv.
    + rewrite on_disconnect_registry by done. unfold unregister.
      destruct (decide (v = u)) as [->|Hne].
      * by rewrite lookup_delete_eq.
      * rewrite lookup_delete_ne by done. intros Hu. apply Hold; congruence.
    + unfold on_disconnect. rewrite Hv. intros Hu. apply Hold; [done|].
      intros [= ->]. destruct (Inv u c' Hu) as [Ht _]. congruence.
  - pose proof (handle_relay_frame (SendMessage c a en) sys) as [Hreg Hses].
    intros u c'. rewrite Hreg, Hses. apply Inv.
  - pose proof (handle_relay_frame (QuerySettled i) sys) as [Hreg Hses].
    intros u c'. rewrite Hreg, Hses. apply Inv.
Qed.

Lemma run_entries_are_open_sessions tr sys :
  entries_are_open_sessions sys → entries_are_open_sessions (run tr sys).
Proof.
  revert sys. induction tr as [|e tr IH]; intros sys Inv; [done|].
  apply IH. by apply handle_entries_are_open_sessions.
Qed.

Lemma run_open_sockets_nonempty tr sys :
  socket_ids_nonempty tr → open_sockets_nonempty sys →
  open_sockets_nonempty (run tr sys).
Proof.
  revert sys. induction tr as [|e tr IH]; intros sys Htr Inv; [done|].
  inversion Htr as [|? ? He Htr']; subst.
  apply IH; [done|]. clear IH Htr Htr'.
  destruct e as [c q|c|c a en|i]; cbn [handle].
  - destruct (sessions sys !! c) eqn:Hc; [done|].
    intros c' q'. cbn [sessions].
    destruct (decide (c = c')) as [<-|Hne]; [done|].
    rewrite lookup_insert_ne by done. apply Inv.
  - destruct (sessions sys !! c) eqn:Hc; [|done].
    intros c' q'. cbn [sessions]. intros Hq.
    apply lookup_delete_Some in Hq as [_ Hq]. by apply (Inv c' q').
  - pose proof (handle_relay_frame (SendMessage c a en) sys) as [_ Hses].
    cbn [handle] in Hses. intros c' q'. rewrite Hses. apply Inv.
  - pose proof (handle_relay_frame (QuerySettled i) sys) as [_ Hses].
    cbn [handle] in Hses. intros c' q'. rewrite Hses. apply Inv.
Qed.

(** On every run from the start, the registry holds non-empty socket
    ids only: what [if (receiverSocketId)] tests is whether the receiver
    has an entry. *)
Lemma run_registered_ids_truthy db tr :
  socket_ids_nonempty tr →
  map_Forall (λ _ c, truthy c = true) (onlineUsers (server (run tr (boot db)))).
Proof.
  intros Htr u c Hu.
  assert (entries_are_open_sessions (boot db)) as Inv0.
  { intros u' c' H'. cbn in H'. by rewrite lookup_empty in H'. }
  assert (open_sockets_nonempty (boot db)) as Inv1.
  { intros c' q' H'. cbn in H'. by rewrite lookup_empty in H'. }
  destruct (run_entries_are_open_sessions tr _ Inv0 u c Hu) as [_ Hs].
  exact (run_open_sockets_nonempty tr _ Htr Inv1 c _ Hs).
Qed.

(** C7.  The registry has at most one entry per user identifier: after
    any sequence of connects, sends, settled queries and disconnects,
    and across each single one of them; [register] on an identifier
    that has an entry replaces it, so that the number of entries stays
    and the new handle is the only one listed for the identifier. *)
Theorem registry_one_entry_per_user
    (db : Database) (tr : list Event) (e : Event) (sys : System)
    (u : string) (c c0 : SocketId) (reg : gmap string SocketId) :
  one_entry_per_user (onlineUsers (server (run tr (boot db))))
  ∧ (one_entry_per_user (onlineUsers (server sys)) →
     one_entry_per_user (onlineUsers (server (handle e sys))))
  ∧ (reg !! u = Some c0 → size (register u c reg) = size reg)
  ∧ (∀ c', (u, c') ∈ map_to_list (register u c reg) ↔ c' = c).
Proof.
  split; [apply one_entry_per_user_map|].
  split; [intros _; apply one_entry_per_user_map|].
  unfold register. split.
  - intros Hu. by rewrite map_size_insert, Hu.
  - intros c'. rewrite elem_of_map_to_list, lookup_insert_eq.
    split; congruence.
Qed.

Lemma registry_one_entry_per_user_witness :
  let sys := run [Connect "s1" (Some alice); Connect "s2" (Some bob)] (boot db0) in
  let reg := onlineUsers (server sys) in
  one_entry_per_user (onlineUsers (server (handle (Connect "s3" (Some alice)) sys)))
  ∧ size (register alice "s3" reg) = size reg
  ∧ map_to_list (onlineUsers (server (handle (Connect "s3" (Some alice)) sys)))
    = [(alice, "s3"); (bob, "s2")].
Proof.
  intros sys reg.
  destruct (registry_one_entry_per_user db0 [] (Connect "s3" (Some alice)) sys
              alice "s3" "s1" reg) as (H0 & Hstep & Hsize & _).
  split; [apply Hstep; apply one_entry_per_user_map|].
  split; [apply Hsize; reflexivity|].
  vm_compute. reflexivity.
Defined.

(** * Further facts about the event loop *)

Lemma insert_message_refuses env db sender receiver txt :
  store_accepts env db sender receiver txt = false →
  ∃ e, insert_message env db sender receiver txt "sent" = (db, QueryThrows e).
Proof.
  unfold store_accepts, insert_message. intros Hno.
  destruct (reachable env); [|by eexists]. cbn in *.
  destruct (read_uuid (types db) sender) as [s|]; [|by eexists].
  destruct (read_uuid (types db) receiver) as [r|]; [|by eexists].
  destruct (read_text (types db) txt); [|by eexists].
  destruct (varchar_in (types db) 20 "sent"); [|by eexists].
  cbn in *. case_bool_decide; [by eexists|].
  destruct (references_users db s && references_users db r); [done|by eexists].
Qed.

(** What one turn of the event loop can do to the store: nothing, or
    append the row of an accepted insert. *)
Lemma handle_store e sys :
  pool (server (handle e sys)) = pool (server sys)
  ∨ ∃ c p m env,
      e = SendMessage c (Some p) env ∧ message p = Some m
      ∧ store_accepts env (pool (server sys)) (senderId m) (receiverId p) (text m)
        = true
      ∧ pool (server (handle e sys))
        = {| types := types (pool (server sys));
             users := users (pool (server sys));
             messages := messages (pool (server sys))
                           ++ [new_row env
                                 (uuid_value (types (pool (server sys))) (senderId m))
                                 (uuid_value (types (pool (server sys))) (receiverId p))
                                 (text m) "sent"] |}.
Proof.
  destruct e as [c q|c|c a env|i]; cbn [handle].
  - left. destruct (sessions sys !! c); [done|]. cbn [server].
    unfold on_connection. destruct q as [u|]; [|done]. by destruct (truthy u).
  - left. destruct (sessions sys !! c) as [q|]; [|done]. cbn [server].
    unfold on_disconnect. destruct q as [u|]; [|done]. by destruct (truthy u).
  - destruct (sessions sys !! c); [|by left].
    unfold send_message_begin. destruct a as [p|]; [|by left].
    destruct (message p) as [m|] eqn:Hm; [|by left].
    destruct (store_accepts env (pool (server sys)) (senderId m) (receiverId p)
                (text m)) eqn:Hok.
    + right. exists c, p, m, env.
      rewrite (insert_message_accepts _ _ _ _ (text m) Hok). by cbn.
    + left. destruct (insert_message_refuses _ _ _ _ (text m) Hok) as [e ->].
      cbn. by destruct (pool (server sys)).
  - left. destruct (awaiting sys !! i) as [fl|]; [|done]. cbn [server].
    apply send_message_resume_frame.
Qed.

Lemma run_cons e tr sys : run (e :: tr) sys = run tr (handle e sys).
Proof. done. Qed.

Lemma run_snoc tr e sys : run (tr ++ [e]) sys = handle e (run tr sys).
Proof. unfold run. by rewrite foldl_app. Qed.

Lemma boot_entries_are_open_sessions db tr :
  entries_are_open_sessions (run tr (boot db)).
Proof.
  apply run_entries_are_open_sessions.
  intros u' c' H'. cbn in H'. by rewrite lookup_empty in H'.
Qed.

(** X1.  Along any run from the start, an entry of the registry maps a
    non-empty identifier to a socket that is open and whose connection
    gave that identifier at its handshake: no entry outlives its
    connection. *)
Theorem presence_entries_are_open_sessions
    (db : Database) (tr : list Event) (u : string) (c : SocketId) :
  onlineUsers (server (run tr (boot db))) !! u = Some c →
  truthy u = true ∧ sessions (run tr (boot db)) !! c = Some (Some u).
Proof. apply boot_entries_are_open_sessions. Qed.

Lemma presence_entries_are_open_sessions_witness :
  let sys := run [Connect "s1" (Some alice); Connect "s2" (Some bob);
                  Disconnect "s1"] (boot db0) in
  truthy bob = true ∧ sessions sys !! "s2" = Some (Some bob).
Proof.
  intros sys.
  apply (presence_entries_are_open_sessions db0
           [Connect "s1" (Some alice); Connect "s2" (Some bob); Disconnect "s1"]
           bob "s2").
  reflexivity.
Defined.

(** X2.  A connection that gave no identifier, or an empty one, is in
    no entry of the registry, so the resumed half of a [send_message]
    never addresses a delivery to it: all it can get is the confirmation
    of what it sent itself. *)
Theorem anonymous_socket_gets_no_delivery
    (db : Database) (tr : list Event) (c : SocketId) (q : option string)
    (i : nat) :
  let sys := run tr (boot db) in
  sessions sys !! c = Some q →
  truthy_opt q = false →
  (∀ u, onlineUsers (server sys) !! u ≠ Some c)
  ∧ List.filter (is_delivery c)
      (emitted_since (server sys) (server (handle (QuerySettled i) sys))) = [].
Proof.
  intros sys Hc Hq.
  assert (∀ u, onlineUsers (server sys) !! u ≠ Some c) as Hno.
  { intros u Hu.
    destruct (boot_entries_are_open_sessions db tr u c Hu) as [Ht Hs].
    fold sys in Hs. rewrite Hc in Hs. injection Hs as ->. cbn in Hq. congruence. }
  split; [done|]. cbn [handle].
  destruct (awaiting sys !! i) as [fl|]; cbn [server].
  2: { unfold emitted_since. by rewrite drop_all. }
  destruct (fl_result fl) as [[|row rows]|e]; cbn [send_message_resume].
  1,3: unfold emitted_since; cbn; by rewrite drop_all.
  rewrite (emitted_since_app _ _ _ (relay_emitted _ _ _ _)).
  rewrite List.filter_app. cbn. rewrite app_nil_r.
  unfold delivery. destruct (fl_receiverId fl) as [u|]; cbn; [|done].
  destruct (onlineUsers (server sys) !! u) as [rs|] eqn:Hu; [|done].
  destruct (truthy rs); [|done]. cbn.
  rewrite bool_decide_eq_false_2; [done|]. intros ->. by apply (Hno u).
Qed.

Lemma anonymous_socket_gets_no_delivery_witness :
  let sys := run [Connect "anon" None; Connect "sockA" (Some alice);
                  SendMessage "sockA" (Some (payload alice bob "hi"))
                    (env_at "m1" 1000)] (boot db0) in
  (∀ u, onlineUsers (server sys) !! u ≠ Some "anon")
  ∧ List.filter (is_delivery "anon")
      (emitted_since (server sys) (server (handle (QuerySettled 0) sys))) = [].
Proof.
  intros sys.
  apply (anonymous_socket_gets_no_delivery db0
           [Connect "anon" None; Connect "sockA" (Some alice);
            SendMessage "sockA" (Some (payload alice bob "hi")) (env_at "m1" 1000)]
           "anon" None 0); reflexivity.
Defined.

Lemma handle_store_grows e sys :
  users (pool (server (handle e sys))) = users (pool (server sys))
  ∧ messages (pool (server sys)) `prefix_of` messages (pool (server (handle e sys))).
Proof.
  destruct (handle_store e sys) as [->|(c & p & m & env & _ & _ & _ & ->)].
  - done.
  - split; [done|]. by apply prefix_app_r.
Qed.

(** X3.  The socket handlers only ever append to [messages]: over any
    sequence of events the rows that were there stay, in place and
    unchanged, as a prefix of the table, and [users] is not touched. *)
Theorem messages_are_append_only (tr : list Event) (sys : System) :
  users (pool (server (run tr sys))) = users (pool (server sys))
  ∧ messages (pool (server sys)) `prefix_of` messages (pool (server (run tr sys))).
Proof.
  revert sys. induction tr as [|e tr IH]; intros sys; [done|].
  rewrite run_cons. destruct (IH (handle e sys)) as [Hu Hm].
  destruct (handle_store_grows e sys) as [Hu' Hm'].
  split; [congruence|]. by etrans.
Qed.

Lemma handle_ids_unique e sys :
  ids_unique (pool (server sys)) → ids_unique (pool (server (handle e sys))).
Proof.
  intros Hnd.
  destruct (handle_store e sys) as [->|(c & p & m & env & _ & _ & Hok & ->)]; [done|].
  unfold ids_unique in *. cbn. rewrite fmap_app. cbn.
  apply NoDup_app. split; [done|]. split; [|apply NoDup_singleton].
  intros x Hx Hx'. apply list_elem_of_singleton in Hx'. subst x.
  unfold store_accepts in Hok. rewrite !andb_true_iff, negb_true_iff in Hok.
  destruct Hok as [_ Hfresh]. by apply bool_decide_eq_false in Hfresh.
Qed.

(** X4.  The primary key holds along every run: when the ids of
    [messages] are pairwise different before, they are after any
    sequence of events, however the store picks the ids it generates. *)
Theorem message_ids_stay_unique (tr : list Event) (sys : System) :
  ids_unique (pool (server sys)) → ids_unique (pool (server (run tr sys))).
Proof.
  revert sys. induction tr as [|e tr IH]; intros sys Hnd; [done|].
  rewrite run_cons. apply IH. by apply handle_ids_unique.
Qed.

Lemma message_ids_stay_unique_witness :
  ids_unique
    (pool (server (run [Connect "sockA" (Some alice);
                        SendMessage "sockA" (Some (payload alice bob "hi"))
                          (env_at "m1" 1000);
                        SendMessage "sockA" (Some (payload alice bob "hi"))
                          (env_at "m1" 1001);
                        SendMessage "sockA" (Some (payload alice bob "hi"))
                          (env_at "m2" 1002)] (boot db0)))).
Proof.
  apply (message_ids_stay_unique _ (boot db0)). apply NoDup_nil_2.
Defined.

Lemma handle_refers_to_users e sys :
  refers_to_users (pool (server sys)) →
  refers_to_users (pool (server (handle e sys))).
Proof.
  intros Hfk.
  destruct (handle_store e sys) as [->|(c & p & m & env & _ & _ & Hok & ->)]; [done|].
  unfold refers_to_users in *. cbn.
  apply Forall_app. split; [done|]. apply Forall_singleton. cbn.
  unfold store_accepts in Hok. rewrite !andb_true_iff in Hok.
  destruct Hok as [[[[_ Hrefs] _] _] _].
  destruct (read_uuid _ (senderId m)) as [x|] eqn:Hx; [|discriminate].
  destruct (read_uuid _ (receiverId p)) as [y|] eqn:Hy; [|discriminate].
  apply read_uuid_value in Hx. apply read_uuid_value in Hy. subst x y.
  by apply andb_true_iff in Hrefs.
Qed.

(** X5.  Referential integrity holds along every run: when every row
    of [messages] names as sender and as receiver a user or NULL, so
    does every row after any sequence of events; a message from or to
    an id that is not in [users] is never stored. *)
Theorem message_users_stay_valid (tr : list Event) (sys : System) :
  refers_to_users (pool (server sys)) →
  refers_to_users (pool (server (run tr sys))).
Proof.
  revert sys. induction tr as [|e tr IH]; intros sys Hfk; [done|].
  rewrite run_cons. apply IH. by apply handle_refers_to_users.
Qed.

Lemma message_users_stay_valid_witness :
  refers_to_users
    (pool (server (run [Connect "sockA" (Some alice);
                        SendMessage "sockA" (Some (payload alice bob "hi"))
                          (env_at "m1" 1000);
                        SendMessage "sockA" (Some (payload mallory bob "hi"))
                          (env_at "m2" 1001)] (boot db0)))).
Proof.
  apply (message_users_stay_valid _ (boot db0)). apply Forall_nil_2.
Defined.

(** What one turn of the event loop can do to [emitted]: nothing, or
    append the delivery and the confirmation of a settled insert. *)
Lemma handle_emitted e sys :
  emitted (server (handle e sys)) = emitted (server sys)
  ∨ ∃ i fl row rows,
      e = QuerySettled i ∧ awaiting sys !! i = Some fl
      ∧ fl_result fl = QueryRows (row :: rows)
      ∧ emitted (server (handle e sys))
        = emitted (server sys)
            ++ delivery (fl_receiverId fl) (onlineUsers (server sys)) row
            ++ [SocketEmit (fl_socket fl) "receive_message" (savedMsg row)].
Proof.
  destruct e as [c q|c|c a env|i]; cbn [handle].
  - left. destruct (sessions sys !! c); [done|]. cbn [server].
    unfold on_connection. destruct q as [u|]; [|done]. by destruct (truthy u).
  - left. destruct (sessions sys !! c) as [q|]; [|done]. cbn [server].
    unfold on_disconnect. destruct q as [u|]; [|done]. by destruct (truthy u).
  - left. destruct (sessions sys !! c); [|done].
    unfold send_message_begin. destruct a as [p|]; [|done].
    destruct (message p) as [m|]; [|done].
    by destruct (insert_message _ _ _ _ _ _).
  - destruct (awaiting sys !! i) as [fl|] eqn:Hi; [|by left]. cbn [server].
    destruct (fl_result fl) as [[|row rows]|err] eqn:Hres; [by left| |by left].
    right. exists i, fl, row, rows. repeat split; try done.
    cbn [send_message_resume]. apply relay_emitted.
Qed.

(** What one turn of the event loop can do to the suspended handlers:
    drop one, or add the one of a query just issued. *)
Lemma handle_awaiting e sys fl :
  fl ∈ awaiting (handle e sys) →
  fl ∈ awaiting sys
  ∨ ∃ c p m env,
      e = SendMessage c (Some p) env ∧ message p = Some m
      ∧ is_Some (sessions sys !! c)
      ∧ fl = {| fl_socket := c; fl_receiverId := receiverId p;
                fl_result := (insert_message env (pool (server sys)) (senderId m)
                                (receiverId p) (text m) "sent").2 |}.
Proof.
  destruct e as [c q|c|c a env|i]; cbn [handle].
  - destruct (sessions sys !! c); by left.
  - destruct (sessions sys !! c); by left.
  - destruct (sessions sys !! c) as [q|] eqn:Hc; [|by left].
    unfold send_message_begin. destruct a as [p|]; cbn.
    2: { rewrite app_nil_r. by left. }
    destruct (message p) as [m|] eqn:Hm; cbn.
    2: { rewrite app_nil_r. by left. }
    destruct (insert_message _ _ _ _ _ _) as [db res] eqn:Hq. cbn.
    intros [Hin|Hin%list_elem_of_singleton]%elem_of_app; [by left|].
    right. exists c, p, m, env. subst fl. rewrite Hq, Hc. by repeat split; eauto.
  - destruct (awaiting sys !! i); [|by left]. cbn.
    intros Hin. left. by eapply list_elem_of_delete_inv.
Qed.

Lemma handle_stored_before_relayed e sys :
  stored_before_relayed sys → stored_before_relayed (handle e sys).
Proof.
  intros [Hfl Hem].
  destruct (handle_store_grows e sys) as [_ Hpre].
  assert (∀ row, row ∈ messages (pool (server sys)) →
                 row ∈ messages (pool (server (handle e sys)))) as Hkeep.
  { intros row Hrow. by eapply elem_of_prefix. }
  split.
  - intros fl row [Hin|(c & p & m & env & -> & Hm & [q Hc] & ->)]%handle_awaiting Hrow.
    + apply Hkeep. by eapply Hfl.
    + unfold answered_rows in Hrow. cbn [fl_result] in Hrow.
      destruct (insert_message env (pool (server sys)) (senderId m) (receiverId p)
                  (text m) "sent") as [db res] eqn:Hq.
      cbn [snd] in Hrow. destruct res as [rows|err]; [|by apply elem_of_nil in Hrow].
      destruct (insert_message_rows _ _ _ _ _ _ _ _ Hq) as (-> & _ & Hmsgs & _).
      apply list_elem_of_singleton in Hrow. subst row.
      cbn [handle]. rewrite Hc.
      unfold send_message_begin. rewrite Hm, Hq. cbn. rewrite Hmsgs.
      apply elem_of_app. right. by apply list_elem_of_singleton.
  - intros em Hin.
    assert (em ∈ emitted (server sys) →
            emission_event em = "receive_message"
            ∧ ∃ row, row ∈ messages (pool (server (handle e sys)))
                     ∧ emission_data em = savedMsg row) as Hold.
    { intros Hin'. destruct (Hem em Hin') as (Hev & row & Hrow & Hdata).
      split; [done|]. exists row. split; [by apply Hkeep|done]. }
    destruct (handle_emitted e sys)
      as [Heq|(i & fl & row & rows & -> & Hi & Hres & Heq)];
      rewrite Heq in Hin; [by apply Hold|].
    apply elem_of_app in Hin as [Hin|Hin]; [by apply Hold|].
    assert (row ∈ messages (pool (server (handle (QuerySettled i) sys)))) as Hrow.
    { apply Hkeep. apply (Hfl fl row).
      - by eapply list_elem_of_lookup_2.
      - unfold answered_rows. rewrite Hres. by left. }
    assert (emission_event em = "receive_message" ∧ emission_data em = savedMsg row)
      as [Hev Hdata].
    { apply elem_of_app in Hin as [Hin|Hin%list_elem_of_singleton]; [|by subst em].
      unfold delivery in Hin.
      destruct (lookup_user _ _) as [rs|]; [|by apply elem_of_nil in Hin].
      destruct (truthy rs); [|by apply elem_of_nil in Hin].
      apply list_elem_of_singleton in Hin. by subst em. }
    split; [done|]. by exists row.
Qed.

Lemma run_stored_before_relayed tr sys :
  stored_before_relayed sys → stored_before_relayed (run tr sys).
Proof.
  revert sys. induction tr as [|e tr IH]; intros sys Inv; [done|].
  rewrite run_cons. apply IH. by apply handle_stored_before_relayed.
Qed.

(** X6.  Nothing is relayed that is not stored: along any run from the
    start, every event handed to Socket.IO is a [receive_message] whose
    payload is [savedMsg] of a row that is in [messages]. *)
Theorem emitted_messages_are_stored
    (db : Database) (tr : list Event) (e : Emission) :
  e ∈ emitted (server (run tr (boot db))) →
  emission_event e = "receive_message"
  ∧ ∃ row, row ∈ messages (pool (server (run tr (boot db))))
           ∧ emission_data e = savedMsg row.
Proof.
  apply run_stored_before_relayed. split.
  - intros fl row Hfl. by apply elem_of_nil in Hfl.
  - intros em Hem. by apply elem_of_nil in Hem.
Qed.

Lemma emitted_messages_are_stored_witness :
  let tr := [Connect "sockA" (Some alice); Connect "sockB" (Some bob);
             SendMessage "sockA" (Some (payload alice bob "hi")) (env_at "m1" 1000);
             QuerySettled 0] in
  let row := new_row (env_at "m1" 1000) (Some alice) (Some bob) (Some "hi") "sent" in
  emission_event (IoToEmit "sockB" "receive_message" (savedMsg row)) = "receive_message"
  ∧ ∃ row', row' ∈ messages (pool (server (run tr (boot db0))))
            ∧ emission_data (IoToEmit "sockB" "receive_message" (savedMsg row))
              = savedMsg row'.
Proof.
  intros tr row.
  apply (emitted_messages_are_stored db0 tr).
  vm_compute. left.
Defined.

Lemma send_message_resume_effect socket receiver res s :
  send_message_resume socket receiver res s
  = {| onlineUsers := onlineUsers s;
       pool := pool s;
       emitted := emitted s ++ resume_emissions socket receiver res (onlineUsers s);
       console := console s ++ resume_console res |}.
Proof.
  destruct s as [reg db em co].
  destruct res as [[|row rows]|e]; cbn; rewrite ?app_nil_r; try done.
  unfold relay, delivery. cbn.
  destruct (lookup_user receiver reg) as [rs|]; cbn; [|done].
  destruct (truthy rs); cbn; [|done].
  unfold emit. cbn. by rewrite <- (app_assoc em).
Qed.

(** X8.  A connect followed by the disconnect of the same connection
    leaves the user without an entry and touches neither the store nor
    the emissions.  The registry is back to what it was only when the
    user had no entry before: an older connection of the same user has
    lost its entry for good. *)
Theorem connect_then_disconnect
    (s : Server) (c : SocketId) (u : string) :
  truthy u = true →
  let s' := on_disconnect (Some u) (on_connection c (Some u) s) in
  onlineUsers s' = unregister u (onlineUsers s)
  ∧ pool s' = pool s
  ∧ emitted s' = emitted s
  ∧ (onlineUsers s' = onlineUsers s ↔ onlineUsers s !! u = None).
Proof.
  intros Hu s'. subst s'.
  assert (onlineUsers (on_disconnect (Some u) (on_connection c (Some u) s))
          = unregister u (onlineUsers s)) as Hreg.
  { rewrite on_disconnect_registry, on_connection_registry by done.
    unfold unregister, register. apply delete_insert_eq. }
  split; [done|]. rewrite Hreg.
  unfold on_disconnect, on_connection. rewrite Hu. cbn.
  split; [done|]. split; [done|]. unfold unregister. split.
  - intros Heq. rewrite <- Heq. apply lookup_delete_eq.
  - apply delete_id.
Qed.

Lemma connect_then_disconnect_witness :
  let s := on_connection "s1" (Some alice) (initial db0) in
  let s' := on_disconnect (Some alice) (on_connection "s2" (Some alice) s) in
  onlineUsers s' = unregister alice (onlineUsers s)
  ∧ pool s' = pool s
  ∧ emitted s' = emitted s
  ∧ (onlineUsers s' = onlineUsers s ↔ onlineUsers s !! alice = None).
Proof.
  intros s.
  apply (connect_then_disconnect s "s2" alice). reflexivity.
Defined.

(** X9.  A [send_message] stores and emits together or not at all.
    When the payload has a [message] object and the store accepts the
    insert, exactly one row is appended, with the values the store read,
    and one or two events are emitted: the delivery, if the receiver has
    an entry, then the confirmation.  In every other case the store and
    the emissions are what they were. *)
Theorem send_message_stores_and_emits_together
    (socket : SocketId) (arg : option Payload) (env : StoreEnv) (s : Server) :
  let s' := (send_message socket arg env s).1 in
  (∃ p m row,
      arg = Some p ∧ message p = Some m
      ∧ store_accepts env (pool s) (senderId m) (receiverId p) (text m) = true
      ∧ row = new_row env (uuid_value (types (pool s)) (senderId m))
                (uuid_value (types (pool s)) (receiverId p)) (text m) "sent"
      ∧ messages (pool s') = messages (pool s) ++ [row]
      ∧ emitted s'
        = emitted s
            ++ delivery (receiverId p) (onlineUsers s) row
            ++ [SocketEmit socket "receive_message" (savedMsg row)]
      ∧ (1 ≤ length (emitted_since s s') ≤ 2)%nat)
  ∨ ((∀ p m, arg = Some p → message p = Some m →
             store_accepts env (pool s) (senderId m) (receiverId p) (text m)
             = false)
     ∧ pool s' = pool s ∧ emitted s' = emitted s).
Proof.
  intros s'. subst s'.
  destruct arg as [p|]; [|right; by split].
  destruct (message p) as [m|] eqn:Hm.
  2: { right. unfold send_message. rewrite Hm.
       split; [|done]. intros p' m' [= <-] Hm'. congruence. }
  destruct (store_accepts env (pool s) (senderId m) (receiverId p) (text m))
    eqn:Hok.
  - left. exists p, m. eexists. split; [done|]. split; [done|]. split; [done|].
    split; [reflexivity|].
    pose proof (insert_message_accepts _ _ _ _ (text m) Hok) as Hq.
    rewrite (send_message_stored_emitted _ _ _ _ _ _ _ Hm Hq).
    rewrite (send_message_stored_pool _ _ _ _ _ _ _ Hm Hq).
    rewrite (send_message_stored _ _ _ _ _ _ _ Hm Hq). cbn [fst].
    rewrite relay_emitted. repeat split; try done.
    + rewrite length_app. cbn. lia.
    + rewrite length_app. cbn. unfold delivery.
      destruct (lookup_user _ _) as [rs|]; cbn; [|lia].
      destruct (truthy rs); cbn; lia.
  - right. destruct (insert_message_refuses _ _ _ _ (text m) Hok) as [e Hq].
    unfold send_message. rewrite Hm, Hq. cbn.
    split; [|by destruct (pool s)].
    intros p' m' [= <-] Hm'. congruence.
Qed.

(** X10.  A message from or to someone the store does not know is
    not relayed: when the store reads [senderId] or [receiverId] as no
    UUID at all, or as a UUID that is not the id of a user, it refuses
    the insert, so nothing is stored and nothing emitted, and the
    handler settles normally after logging the failure. *)
Theorem unknown_user_is_not_relayed
    (socket : SocketId) (p : Payload) (m : Message) (env : StoreEnv)
    (s : Server) (t : string) :
  message p = Some m →
  senderId m = Some t ∨ receiverId p = Some t →
  (∀ u, uuid_in (types (pool s)) t = Some u → u ∉ users (pool s)) →
  ∃ e, send_message socket (Some p) env s
       = (console_write (ErrSaveSendFailed (StoreError e)) s, Fulfilled).
Proof.
  intros Hm Ht Hno.
  assert (store_accepts env (pool s) (senderId m) (receiverId p) (text m) = false)
    as Hok.
  { unfold store_accepts.
    assert (match read_uuid (types (pool s)) (senderId m),
                  read_uuid (types (pool s)) (receiverId p) with
            | Some x, Some y => references_users (pool s) x && references_users (pool s) y
            | _, _ => false
            end = false) as ->; [|by rewrite andb_false_r].
    destruct Ht as [-> | ->]; cbn.
    - destruct (uuid_in (types (pool s)) t) as [u|] eqn:Hu; cbn; [|done].
      destruct (read_uuid _ (receiverId p)); [|done].
      by rewrite (bool_decide_eq_false_2 _ (Hno u eq_refl)).
    - destruct (read_uuid _ (senderId m)) as [x|]; [|done].
      destruct (uuid_in (types (pool s)) t) as [u|] eqn:Hu; cbn; [|done].
      rewrite (bool_decide_eq_false_2 _ (Hno u eq_refl)). apply andb_false_r. }
  destruct (insert_message_refuses _ _ _ _ (text m) Hok) as [e Hq].
  exists e. unfold send_message. rewrite Hm, Hq. cbn.
  by destruct s as [reg [ty us ms] em co].
Qed.

Lemma unknown_user_is_not_relayed_witness :
  let s := on_connection "sockB" (Some bob) (initial db0) in
  ∃ e, send_message "sockA" (Some (payload mallory bob "hi")) (env_at "m1" 1000) s
       = (console_write (ErrSaveSendFailed (StoreError e)) s, Fulfilled).
Proof.
  intros s.
  apply (unknown_user_is_not_relayed "sockA" (payload mallory bob "hi")
           {| senderId := Some mallory; text := Some "hi" |}
           (env_at "m1" 1000) s mallory).
  - reflexivity.
  - left. reflexivity.
  - intros u Hu. vm_compute in Hu. injection Hu as <-.
    apply (bool_decide_unpack _). vm_compute. exact I.
Defined.

(** X11.  The order in which two pending queries settle changes the
    order of the emissions and of the console lines and nothing else:
    registry and store end up the same, and each handler emits what it
    would have emitted had it gone first. *)
Theorem settling_order_only_reorders
    (c1 c2 : SocketId) (r1 r2 : option string) (res1 res2 : QueryResult)
    (s : Server) :
  let a := send_message_resume c2 r2 res2 (send_message_resume c1 r1 res1 s) in
  let b := send_message_resume c1 r1 res1 (send_message_resume c2 r2 res2 s) in
  onlineUsers a = onlineUsers b
  ∧ pool a = pool b
  ∧ emitted a = emitted s ++ resume_emissions c1 r1 res1 (onlineUsers s)
                  ++ resume_emissions c2 r2 res2 (onlineUsers s)
  ∧ emitted b = emitted s ++ resume_emissions c2 r2 res2 (onlineUsers s)
                  ++ resume_emissions c1 r1 res1 (onlineUsers s)
  ∧ emitted a ≡ₚ emitted b
  ∧ console a ≡ₚ console b.
Proof.
  intros a b. subst a b. rewrite !send_message_resume_effect. cbn.
  rewrite <- !app_assoc. repeat split.
  - apply Permutation_app_head, Permutation_app_comm.
  - apply Permutation_app_head, Permutation_app_comm.
Qed.

Lemma on_connection_frame socket q s :
  pool (on_connection socket q s) = pool s
  ∧ emitted (on_connection socket q s) = emitted s.
Proof. unfold on_connection. destruct q as [u|]; [|done]. by destruct (truthy u). Qed.

Lemma on_disconnect_frame q s :
  pool (on_disconnect q s) = pool s ∧ emitted (on_disconnect q s) = emitted s.
Proof. unfold on_disconnect. destruct q as [u|]; [|done]. by destruct (truthy u). Qed.

(** X12.  The receiver is looked up when the query settles, not when
    the message is sent: a receiver who connects while the insert is
    pending gets the delivery on the new connection. *)
Theorem late_receiver_is_delivered
    (sys : System) (i : nat) (fl : InFlight)
    (row : MessageRow) (rows : list MessageRow) (u : string) (c : SocketId) :
  awaiting sys !! i = Some fl →
  fl_result fl = QueryRows (row :: rows) →
  fl_receiverId fl = Some u →
  truthy u = true → truthy c = true →
  sessions sys !! c = None →
  let sys' := handle (QuerySettled i) (handle (Connect c (Some u)) sys) in
  emitted_since (server sys) (server sys')
  = [IoToEmit c "receive_message" (savedMsg row);
     SocketEmit (fl_socket fl) "receive_message" (savedMsg row)].
Proof.
  intros Hi Hres Hrcv Hu Hc Hfresh sys'. subst sys'.
  cbn [handle]. rewrite Hfresh. cbn [awaiting server]. rewrite Hi.
  cbn [server]. rewrite Hres. cbn [send_message_resume].
  apply emitted_since_app. rewrite relay_emitted.
  destruct (on_connection_frame c (Some u) (server sys)) as [_ ->].
  f_equal. unfold delivery. rewrite Hrcv, on_connection_registry by done.
  unfold lookup_user, register. by rewrite lookup_insert_eq, Hc.
Qed.

Lemma late_receiver_is_delivered_witness :
  let sys := run [Connect "sockA" (Some alice);
                  SendMessage "sockA" (Some (payload alice bob "hi"))
                    (env_at "m1" 1000)] (boot db0) in
  let row := new_row (env_at "m1" 1000) (Some alice) (Some bob) (Some "hi") "sent" in
  let sys' := handle (QuerySettled 0) (handle (Connect "sockB" (Some bob)) sys) in
  emitted_since (server sys) (server sys')
  = [IoToEmit "sockB" "receive_message" (savedMsg row);
     SocketEmit "sockA" "receive_message" (savedMsg row)].
Proof.
  intros sys row.
  apply (late_receiver_is_delivered sys 0
           {| fl_socket := "sockA"; fl_receiverId := Some bob;
              fl_result := QueryRows [row] |} row [] bob "sockB");
    reflexivity.
Defined.

(** X13.  When a connection of the receiver closes while the insert is
    pending, the receiver gets nothing, whichever of the receiver's
    connections the registry had: the confirmation to the sender is all
    that is emitted, and the row stays in the store. *)
Theorem departed_receiver_is_not_delivered
    (sys : System) (i : nat) (fl : InFlight)
    (row : MessageRow) (rows : list MessageRow) (u : string) (c : SocketId) :
  awaiting sys !! i = Some fl →
  fl_result fl = QueryRows (row :: rows) →
  fl_receiverId fl = Some u →
  truthy u = true →
  sessions sys !! c = Some (Some u) →
  let sys' := handle (QuerySettled i) (handle (Disconnect c) sys) in
  emitted_since (server sys) (server sys')
  = [SocketEmit (fl_socket fl) "receive_message" (savedMsg row)]
  ∧ pool (server sys') = pool (server sys).
Proof.
  intros Hi Hres Hrcv Hu Hc sys'. subst sys'.
  cbn [handle]. rewrite Hc. cbn [awaiting server]. rewrite Hi.
  cbn [server]. rewrite Hres. cbn [send_message_resume].
  destruct (on_disconnect_frame (Some u) (server sys)) as [Hpool Hem].
  split.
  - apply emitted_since_app. rewrite relay_emitted, Hem.
    f_equal. unfold delivery. rewrite Hrcv, on_disconnect_registry by done.
    unfold lookup_user, unregister. by rewrite lookup_delete_eq.
  - by destruct (relay_frame (fl_socket fl) (fl_receiverId fl) row
                   (on_disconnect (Some u) (server sys))) as (_ & -> & _).
Qed.

Lemma departed_receiver_is_not_delivered_witness :
  let sys := run [Connect "sockA" (Some alice); Connect "b1" (Some bob);
                  Connect "b2" (Some bob);
                  SendMessage "sockA" (Some (payload alice bob "hi"))
                    (env_at "m1" 1000)] (boot db0) in
  let row := new_row (env_at "m1" 1000) (Some alice) (Some bob) (Some "hi") "sent" in
  let sys' := handle (QuerySettled 0) (handle (Disconnect "b1") sys) in
  emitted_since (server sys) (server sys')
  = [SocketEmit "sockA" "receive_message" (savedMsg row)]
  ∧ pool (server sys') = pool (server sys).
Proof.
  intros sys row.
  apply (departed_receiver_is_not_delivered sys 0
           {| fl_socket := "sockA"; fl_receiverId := Some bob;
              fl_result := QueryRows [row] |} row [] bob "b1");
    reflexivity.
Defined.

(** X14.  Closing the sending connection does not cancel a pending
    [send_message]: the suspended handler stays, the row stays in the
    store, and when the query settles the confirmation is still emitted
    on the socket that is closed by then. *)
Theorem disconnect_does_not_cancel_pending_send
    (sys : System) (i : nat) (fl : InFlight)
    (row : MessageRow) (rows : list MessageRow) (q : option string) :
  awaiting sys !! i = Some fl →
  fl_result fl = QueryRows (row :: rows) →
  sessions sys !! fl_socket fl = Some q →
  let sys1 := handle (Disconnect (fl_socket fl)) sys in
  let sys2 := handle (QuerySettled i) sys1 in
  sessions sys1 !! fl_socket fl = None
  ∧ awaiting sys1 = awaiting sys
  ∧ pool (server sys2) = pool (server sys)
  ∧ last (emitted (server sys2))
    = Some (SocketEmit (fl_socket fl) "receive_message" (savedMsg row)).
Proof.
  intros Hi Hres Hc sys1 sys2. subst sys1 sys2.
  cbn [handle]. rewrite Hc. cbn [awaiting server sessions]. rewrite Hi.
  cbn [server]. rewrite Hres. cbn [send_message_resume].
  destruct (on_disconnect_frame q (server sys)) as [Hpool Hem].
  split; [apply lookup_delete_eq|]. split; [done|]. split.
  - by destruct (relay_frame (fl_socket fl) (fl_receiverId fl) row
                   (on_disconnect q (server sys))) as (_ & -> & _).
  - by rewrite relay_emitted, !app_assoc, last_snoc.
Qed.

Lemma disconnect_does_not_cancel_pending_send_witness :
  let sys := run [Connect "sockA" (Some alice); Connect "sockB" (Some bob);
                  SendMessage "sockA" (Some (payload alice bob "hi"))
                    (env_at "m1" 1000)] (boot db0) in
  let row := new_row (env_at "m1" 1000) (Some alice) (Some bob) (Some "hi") "sent" in
  let sys1 := handle (Disconnect "sockA") sys in
  let sys2 := handle (QuerySettled 0) sys1 in
  sessions sys1 !! "sockA" = None
  ∧ awaiting sys1 = awaiting sys
  ∧ pool (server sys2) = pool (server sys)
  ∧ last (emitted (server sys2))
    = Some (SocketEmit "sockA" "receive_message" (savedMsg row)).
Proof.
  intros sys row.
  apply (disconnect_does_not_cancel_pending_send sys 0
           {| fl_socket := "sockA"; fl_receiverId := Some bob;
              fl_result := QueryRows [row] |} row [] (Some alice));
    reflexivity.
Defined.

(** * The business-profile route *)

Ltac unfold_route :=
  cbv [Rest.serve Rest.create_business_profile
       Rest.create_business_profile_with_user Rest.try_catch
       Rest.rollback_and_fail Rest.transaction Rest.succeeds Rest.first_throw
       Rest.undeclared mbind mret Rest.script_bind Rest.script_ret Rest.query
       length app take].

Ltac case_answers db :=
  destruct (db 0%nat) eqn:?; destruct (db 1%nat) eqn:?;
  destruct (db 2%nat) eqn:?; destruct (db 3%nat) eqn:?;
  destruct (db 4%nat) eqn:?; try destruct (db 5%nat) eqn:?.

Lemma create_business_profile_serve userId b db :
  Rest.serve (Rest.create_business_profile userId b) db
  = match Rest.first_throw db 0 4 with
    | None =>
        (Rest.transaction userId b,
         Some {| Rest.code := 200;
                 Rest.json := Rest.JsonMessage "Business profile created" |})
    | Some k =>
        (take (S k) (Rest.transaction userId b) ++ [Rest.Rollback],
         if Rest.succeeds db (S k)
         then Some {| Rest.code := 500;
                      Rest.json := Rest.JsonError "Failed to create business profile" |}
         else None)
    end.
Proof. unfold_route. case_answers db; reflexivity. Qed.

Lemma create_business_profile_with_user_serve userId b db :
  Rest.serve (Rest.create_business_profile_with_user userId b) db
  = (take (match Rest.first_throw db 0 4 with
           | None => 4
           | Some k => S k
           end) (Rest.transaction userId b) ++ [Rest.Rollback],
     if Rest.succeeds db (match Rest.first_throw db 0 4 with
                          | None => 4
                          | Some k => S k
                          end)
     then Some {| Rest.code := 500;
                  Rest.json := Rest.JsonError "Failed to create business profile" |}
     else None).
Proof. unfold_route. case_answers db; reflexivity. Qed.

(** X15.  The business-profile route of [part_000] answers 200 exactly
    when none of BEGIN, INSERT, UPDATE and COMMIT throws, and has then
    sent exactly these four.  When one of them throws, nothing further
    of the transaction is sent, one ROLLBACK follows, and the answer is
    500, or no answer at all when the ROLLBACK throws too. *)
Theorem business_profile_route_statements
    (userId : string) (b : Rest.BusinessBody) (db : nat → Rest.Answer) :
  Rest.serve (Rest.create_business_profile userId b) db
  = match Rest.first_throw db 0 4 with
    | None =>
        (Rest.transaction userId b,
         Some {| Rest.code := 200;
                 Rest.json := Rest.JsonMessage "Business profile created" |})
    | Some k =>
        (take (S k) (Rest.transaction userId b) ++ [Rest.Rollback],
         if Rest.succeeds db (S k)
         then Some {| Rest.code := 500;
                      Rest.json := Rest.JsonError "Failed to create business profile" |}
         else None)
    end.
Proof. apply create_business_profile_serve. Qed.

(** X16.  In [part_000] the answer tells the truth about the commit:
    whenever the route answers 500, COMMIT was not sent or threw, and
    ROLLBACK was the last statement; whenever it answers 200, no
    ROLLBACK was sent. *)
Theorem business_profile_failure_means_no_commit
    (userId : string) (b : Rest.BusinessBody) (db : nat → Rest.Answer)
    (r : Rest.Response) :
  (Rest.serve (Rest.create_business_profile userId b) db).2 = Some r →
  let log := (Rest.serve (Rest.create_business_profile userId b) db).1 in
  (Rest.code r = 500%nat
   ∧ (Rest.Commit ∉ log ∨ Rest.succeeds db 3 = false)
   ∧ last log = Some Rest.Rollback)
  ∨ (Rest.code r = 200%nat
     ∧ (Rest.Rollback ∉ log)
     ∧ Rest.first_throw db 0 4 = None).
Proof.
  intros Hres log. subst log. revert Hres.
  rewrite create_business_profile_serve.
  cbv [Rest.first_throw Rest.succeeds Rest.transaction take app].
  destruct (db 0%nat) eqn:?; destruct (db 1%nat) eqn:?;
    destruct (db 2%nat) eqn:?; destruct (db 3%nat) eqn:?;
    destruct (db 4%nat) eqn:?; cbn; intros [= <-]; cbn;
    first [ right; repeat split; try done;
            rewrite !elem_of_cons; intros H;
            repeat (destruct H as [H|H]; [discriminate H|]);
            by apply elem_of_nil in H
          | left; repeat split; try done;
            first [ by right
                  | left; rewrite !elem_of_cons; intros H;
                    repeat (destruct H as [H|H]; [discriminate H|]);
                    by apply elem_of_nil in H ] ].
Qed.

Lemma business_profile_failure_means_no_commit_witness :
  let db := λ k : nat, if Nat.eqb k 2 then Rest.Throws else Rest.Rows [] in
  let b := {| Rest.name := Some "Boulangerie"; Rest.category := Some "food";
              Rest.description := None; Rest.website := None |} in
  let log := (Rest.serve (Rest.create_business_profile alice b) db).1 in
  (500 = 500
   ∧ (Rest.Commit ∉ log ∨ Rest.succeeds db 3 = false)
   ∧ last log = Some Rest.Rollback)%nat
  ∨ (500 = 200
     ∧ (Rest.Rollback ∉ log)
     ∧ Rest.first_throw db 0 4 = None)%nat.
Proof.
  intros db b.
  apply (business_profile_failure_means_no_commit alice b db
           {| Rest.code := 500;
              Rest.json := Rest.JsonError "Failed to create business profile" |}).
  reflexivity.
Defined.

(** X17.  The business-profile route as [server.js] has it never
    gets to read the user back.  It sends the statements of the
    transaction up to the first that throws, or all four; in either case
    an exception follows, from the statement or from the undeclared
    [code] after the commit, so one ROLLBACK is sent as the last
    statement, and the answer is 500, or no answer at all when the
    ROLLBACK throws too. *)
Theorem business_profile_with_user_statements
    (userId : string) (b : Rest.BusinessBody) (db : nat → Rest.Answer) :
  let sent := match Rest.first_throw db 0 4 with
              | None => 4%nat
              | Some k => S k
              end in
  Rest.serve (Rest.create_business_profile_with_user userId b) db
  = (take sent (Rest.transaction userId b) ++ [Rest.Rollback],
     if Rest.succeeds db sent
     then Some {| Rest.code := 500;
                  Rest.json := Rest.JsonError "Failed to create business profile" |}
     else None).
Proof. apply create_business_profile_with_user_serve. Qed.

(** X18.  As [server.js] has it, the route never sends the select and
    never answers 200, and its 500 does not mean that nothing was
    committed: whenever the four statements of the transaction go
    through, the COMMIT among them, the route still sends ROLLBACK after
    it and answers 500 or nothing. *)
Theorem business_profile_with_user_fails_after_commit
    (userId : string) (b : Rest.BusinessBody) (db : nat → Rest.Answer) :
  let out := Rest.serve (Rest.create_business_profile_with_user userId b) db in
  (Rest.SelectUser userId ∉ out.1)
  ∧ (∀ r, out.2 = Some r → Rest.code r = 500%nat)
  ∧ (Rest.first_throw db 0 4 = None →
     out.1 = Rest.transaction userId b ++ [Rest.Rollback]
     ∧ Rest.succeeds db 3 = true
     ∧ (Rest.succeeds db 4 = true → ∃ r, out.2 = Some r ∧ Rest.code r = 500%nat)).
Proof.
  intros out. subst out. rewrite create_business_profile_with_user_serve.
  cbv [Rest.first_throw Rest.succeeds Rest.transaction take app fst snd].
  destruct (db 0%nat) eqn:?; destruct (db 1%nat) eqn:?;
    destruct (db 2%nat) eqn:?; destruct (db 3%nat) eqn:?;
    destruct (db 4%nat) eqn:?; cbn;
    (split;
     [ rewrite !elem_of_cons; intros H;
       repeat (destruct H as [H|H]; [discriminate H|]);
       by apply elem_of_nil in H
     | split;
       [ intros r Hr; first [discriminate Hr | by injection Hr as <-]
       | intros Hno; first [discriminate Hno | repeat split; try done];
         intros _; eexists; by split ] ]).
Qed.

Lemma business_profile_with_user_fails_after_commit_witness :
  let db := λ _ : nat, Rest.Rows [] in
  let b := {| Rest.name := Some "Boulangerie"; Rest.category := Some "food";
              Rest.description := None; Rest.website := None |} in
  let out := Rest.serve (Rest.create_business_profile_with_user alice b) db in
  out.1 = Rest.transaction alice b ++ [Rest.Rollback]
  ∧ Rest.succeeds db 3 = true
  ∧ (Rest.succeeds db 4 = true → ∃ r, out.2 = Some r ∧ Rest.code r = 500%nat).
Proof.
  intros db b.
  apply (business_profile_with_user_fails_after_commit alice b db).
  reflexivity.
Defined.

(** * Who gets a delivery *)

(** X19.  A delivery goes to a connection of the receiver and to no
    one else: along any run from the start, whenever the resumed half of
    a [send_message] emits to a room, the handler was sent with a
    [receiverId], the room is the id of an open socket, and the
    connection behind it gave that very identifier at its handshake;
    what it gets is the stored row. *)
Theorem delivery_goes_to_the_receiver
    (db : Database) (tr : list Event) (i : nat) (fl : InFlight)
    (c : SocketId) (ev : string) (d : SavedMsg) :
  let sys := run tr (boot db) in
  awaiting sys !! i = Some fl →
  IoToEmit c ev d
    ∈ emitted_since (server sys) (server (handle (QuerySettled i) sys)) →
  ∃ u row, fl_receiverId fl = Some u
           ∧ sessions sys !! c = Some (Some u)
           ∧ head (answered_rows fl) = Some row
           ∧ ev = "receive_message" ∧ d = savedMsg row.
Proof.
  intros sys Hi. cbn [handle]. rewrite Hi. cbn [server].
  rewrite send_message_resume_effect. cbn [emitted].
  rewrite (emitted_since_app (server sys) _
             (resume_emissions (fl_socket fl) (fl_receiverId fl) (fl_result fl)
                (onlineUsers (server sys)))) by done.
  unfold resume_emissions, answered_rows.
  destruct (fl_result fl) as [[|row rows]|e];
    [by intros ?%elem_of_nil| |by intros ?%elem_of_nil].
  intros [Hin|Hin%list_elem_of_singleton]%elem_of_app; [|discriminate Hin].
  unfold delivery in Hin.
  destruct (fl_receiverId fl) as [u|]; cbn in Hin; [|by apply elem_of_nil in Hin].
  destruct (onlineUsers (server sys) !! u) as [rs|] eqn:Hu;
    [|by apply elem_of_nil in Hin].
  destruct (truthy rs); [|by apply elem_of_nil in Hin].
  apply list_elem_of_singleton in Hin. injection Hin as -> -> ->.
  destruct (boot_entries_are_open_sessions db tr u rs Hu) as [_ Hs].
  exists u, row. by repeat split.
Qed.

Lemma delivery_goes_to_the_receiver_witness :
  let tr := [Connect "sockA" (Some alice); Connect "sockB" (Some bob);
             SendMessage "sockA" (Some (payload alice bob "hi")) (env_at "m1" 1000)] in
  let row := new_row (env_at "m1" 1000) (Some alice) (Some bob) (Some "hi") "sent" in
  let fl := {| fl_socket := "sockA"; fl_receiverId := Some bob;
               fl_result := QueryRows [row] |} in
  ∃ u row', fl_receiverId fl = Some u
            ∧ sessions (run tr (boot db0)) !! "sockB" = Some (Some u)
            ∧ head (answered_rows fl) = Some row'
            ∧ "receive_message" = "receive_message" ∧ savedMsg row = savedMsg row'.
Proof.
  intros tr row fl.
  apply (delivery_goes_to_the_receiver db0 tr 0 fl "sockB" "receive_message"
           (savedMsg row)).
  - reflexivity.
  - vm_compute. left.
Defined.

(** X20.  When Socket.IO hands out non-empty socket ids, the test
    [if (receiverSocketId)] is the test for an entry: along any run from
    the start, a receiver with an entry is delivered to on the socket of
    that entry, and a receiver without one is not delivered to. *)
Theorem delivery_iff_registered
    (db : Database) (tr : list Event) (receiver : option string)
    (row : MessageRow) :
  socket_ids_nonempty tr →
  delivery receiver (onlineUsers (server (run tr (boot db)))) row
  = match lookup_user receiver (onlineUsers (server (run tr (boot db)))) with
    | Some rs => [IoToEmit rs "receive_message" (savedMsg row)]
    | None => []
    end.
Proof.
  intros Htr. unfold delivery.
  destruct (lookup_user receiver _) as [rs|] eqn:Hlook; [|done].
  destruct receiver as [u|]; [|done].
  by rewrite (run_registered_ids_truthy db tr Htr u rs Hlook).
Qed.

Lemma delivery_iff_registered_witness :
  let tr := [Connect "sockA" (Some alice); Connect "sockB" (Some bob)] in
  let row := new_row (env_at "m1" 1000) (Some alice) (Some bob) (Some "hi") "sent" in
  delivery (Some bob) (onlineUsers (server (run tr (boot db0)))) row
  = match lookup_user (Some bob) (onlineUsers (server (run tr (boot db0)))) with
    | Some rs => [IoToEmit rs "receive_message" (savedMsg row)]
    | None => []
    end.
Proof.
  intros tr row.
  apply (delivery_iff_registered db0 tr (Some bob) row).
  repeat constructor.
Defined.
